(** * Redis-backed event queue, consumer and queue manager

    A shallow embedding of
    - [src/a2a/server/events/redis_event_queue.py] (class [RedisEventQueue]),
    - [a2a_extensions/redis/redis_event_consumer.py] (class [RedisEventConsumer]),
    - [a2a_extensions/redis/redis_queue_manager.py] (class [RedisQueueManager]),
    together with the in-memory redis client of
    [tests/server/events/test_redis_event_queue.py] (class [FakeRedis]).

    Python objects that are mutated in place are threaded explicitly: a queue
    method takes the handle and the redis client and returns the new handle
    (or the new client) next to its outcome and the log records it emitted.
    The manager's registry holds references into a heap of queue objects. *)

From stdpp Require Import gmap strings list fin_maps.
From Stdlib Require Import Strings.Byte Strings.Ascii.

Local Open Scope string_scope.
Local Open Scope list_scope.
Local Open Scope Z_scope.

(** ** Exceptions, outcomes and logging *)

Inductive exn :=
| QueueEmpty (msg : string)   (* asyncio.QueueEmpty, with its argument *)
| RedisError                  (* redis.exceptions.RedisError *)
| IndexError                  (* indexing an empty list *)
| TaskQueueExists             (* a2a.server.events.queue_manager *)
| NoTaskQueue.

Inductive outcome (A : Type) :=
| Return (a : A)
| Raise (e : exn).
Arguments Return {A} a.
Arguments Raise {A} e.

Inductive Level := DEBUG | WARNING | ERROR.

Record LogRecord := mkLog { level : Level; message : string }.

(** [logger.exception] logs at level ERROR. *)
Definition log_exception (m : string) : LogRecord := mkLog ERROR m.
Definition log_warning (m : string) : LogRecord := mkLog WARNING m.
Definition log_debug (m : string) : LogRecord := mkLog DEBUG m.

(** ** Values held by a stream entry

    A redis client hands back field names and values either as [str]
    (with [decode_responses=True], and always from [FakeRedis]) or as
    [bytes]. *)

Inductive rstr :=
| Str (s : string)
| Bytes (b : list byte).

Global Instance byte_eq_dec : EqDecision byte := Byte.byte_eq_dec.

Global Instance rstr_eq_dec : EqDecision rstr.
Proof. solve_decision. Defined.

Abbreviation Fields := (list (rstr * rstr)).

(** An entry [(entry_id, fields)]; the identifier [f"{idx}-0"] is kept as
    its numeric part [idx], the only part the client compares. *)
Abbreviation Entry := (nat * Fields)%type.

(** A read cursor: an entry identifier, ['0-0'] being [Id 0], or ['$']. *)
Inductive LastId :=
| Id (idx : nat)
| Dollar.

(** ** The pydantic models of [_TYPE_MAP] *)

Inductive Model := Message | Task | TaskStatusUpdateEvent | TaskArtifactUpdateEvent.

Definition _TYPE_MAP (name : string) : option Model :=
  if String.eqb name "Message" then Some Message
  else if String.eqb name "Task" then Some Task
  else if String.eqb name "TaskStatusUpdateEvent" then Some TaskStatusUpdateEvent
  else if String.eqb name "TaskArtifactUpdateEvent" then Some TaskArtifactUpdateEvent
  else None.

(** What [dequeue_event] binds to [data]: the value [json.loads] built, or
    the raw field value when it is not a JSON text. *)
Inductive Payload (D : Type) :=
| PData (d : D)
| PRaw (v : rstr).
Arguments PData {D} d.
Arguments PRaw {D} v.

(** ** The Python runtime the queue calls into

    [json], pydantic and the UTF-8 codec are libraries, not code of the
    repository; the queue is written against this interface. *)
Class Runtime := {
  Event : Type;                                  (* what enqueue_event accepts *)
  class_name : Event -> string;                  (* type(event).__name__ *)
  to_json : Event -> string;                     (* event.json() *)
  Data : Type;                                   (* what json.loads returns *)
  json_loads : string -> option Data;            (* None: json.JSONDecodeError *)
  utf8_decode : list byte -> option string;      (* None: UnicodeDecodeError *)
  parse_obj : Model -> Payload Data -> option Event  (* None: ValidationError *)
}.

(** What [dequeue_event] returns: a parsed model, or the unparsed data. *)
Inductive Returned `{Runtime} :=
| Parsed (e : Event)
| Unparsed (p : Payload Data).

(** ** The redis client *)

(** How [getattr(client, 'streams', {})] and the [.get] on its result fare:
    the attribute is missing (a [redis.asyncio.Redis] client), is the dict of
    [FakeRedis], or is something a lookup on which raises. *)
Inductive StreamsAttr := NoAttr | DictAttr | OpaqueAttr.

Record Redis := mkRedis {
  streams : gmap string (list Entry);  (* stream_key -> list of (id, fields) *)
  streams_attr : StreamsAttr;
  down : bool                          (* every command raises RedisError *)
}.

Module FakeRedis.

Definition __init__ : Redis := mkRedis ∅ DictAttr false.

Definition with_streams (r : Redis) (s : gmap string (list Entry)) : Redis :=
  mkRedis s (streams_attr r) (down r).

(** [self.streams.get(key, [])] *)
Definition stream (r : Redis) (key : string) : list Entry :=
  default [] (streams r !! key).

(** [xadd]: [maxlen] is accepted and ignored, as in the test double. *)
Definition xadd (r : Redis) (stream_key : string) (fields : Fields)
    (maxlen : option Z) : outcome nat * Redis :=
  if down r then (Raise RedisError, r)
  else
    let lst := stream r stream_key in
    let idx := S (length lst) in
    (Return idx, with_streams r (<[stream_key := (lst ++ [(idx, fields)])]> (streams r))).

Definition last_num (lst : list Entry) (last_id : LastId) : nat :=
  match last_id with
  | Dollar => length lst
  | Id n => n
  end.

(** [xread] of the one-stream dict [{stream_key: last_id}]; [block] is
    ignored by the test double, an elapsed timeout being an empty result. *)
Definition xread (r : Redis) (stream_key : string) (last_id : LastId)
    (block : Z) (count : option nat) : outcome (list (string * list Entry)) :=
  if down r then Raise RedisError
  else
    let lst := stream r stream_key in
    let n := last_num lst last_id in
    let to_return := filter (λ e : Entry, (n < e.1)%nat) lst in
    match to_return with
    | [] => Return []
    | _ => Return [(stream_key,
                    match count with
                    | Some c => take c to_return
                    | None => to_return
                    end)]
    end.

(** [set]: a no-op returning [True]. *)
Definition set (r : Redis) (key value : string) : outcome bool * Redis :=
  if down r then (Raise RedisError, r) else (Return true, r).

(** [delete]: [self.streams.pop(key, None)]. *)
Definition delete (r : Redis) (key : string) : outcome bool * Redis :=
  if down r then (Raise RedisError, r)
  else (Return true, with_streams r (delete key (streams r))).

End FakeRedis.

(** ** String helpers *)

Definition is_colon (c : Ascii.ascii) : bool := Ascii.eqb c ":"%char.

Fixpoint has_colon (s : string) : bool :=
  match s with
  | EmptyString => false
  | String c s' => is_colon c || has_colon s'
  end.

(** [s.rsplit(':', 1)[0]]: what precedes the last colon, or [s] itself when
    it has none. *)
Fixpoint rsplit_head (s : string) : string :=
  match s with
  | EmptyString => EmptyString
  | String c s' =>
      if is_colon c && negb (has_colon s') then EmptyString
      else String c (rsplit_head s')
  end.

(** ** RedisEventQueue *)

Module RedisEventQueue.

Record t := mk {
  _task_id : string;
  _stream_key : string;
  _maxlen : option Z;
  _read_block_ms : Z;
  _last_id : LastId;      (* the read cursor *)
  _is_closed : bool
}.

Definition set_last_id (self : t) (i : LastId) : t :=
  mk (_task_id self) (_stream_key self) (_maxlen self) (_read_block_ms self)
     i (_is_closed self).

Definition set_is_closed (self : t) (b : bool) : t :=
  mk (_task_id self) (_stream_key self) (_maxlen self) (_read_block_ms self)
     (_last_id self) b.

(** The constructor; the stream key is [f'{stream_prefix}:{task_id}'].
    A redis client is always supplied here, so the
    [RedisNotAvailableError] guard never fires. *)
Definition __init__ (task_id stream_prefix : string) (maxlen : option Z)
    (read_block_ms : Z) : t :=
  mk task_id (stream_prefix +:+ ":" +:+ task_id) maxlen read_block_ms (Id 0) false.

(** The defaults of the signature: [stream_prefix='a2a:task'],
    [maxlen=None], [read_block_ms=500]. *)
Definition default_stream_prefix : string := "a2a:task".
Definition default_read_block_ms : Z := 500.

Definition is_closed (self : t) : bool := _is_closed self.

Definition task_done (self : t) : t := self.

(** [if self._maxlen: kwargs['maxlen'] = self._maxlen] *)
Definition maxlen_kwarg (self : t) : option Z :=
  match _maxlen self with
  | Some n => if n =? 0 then None else Some n
  | None => None
  end.

Section WithRuntime.
Context `{Runtime}.

Definition enqueue_event (self : t) (r : Redis) (event : Event)
    : outcome unit * Redis * list LogRecord :=
  if _is_closed self then
    (Return (), r, [log_warning "Attempt to enqueue to closed RedisEventQueue"])
  else
    let payload := [(Str "type", Str (class_name event));
                    (Str "payload", Str (to_json event))] in
    match FakeRedis.xadd r (_stream_key self) payload (maxlen_kwarg self) with
    | (Return _, r') => (Return (), r', [])
    | (Raise RedisError, r') =>
        (Return (), r', [log_exception "Failed to XADD event to redis stream"])
    | (Raise e, r') => (Raise e, r', [])
    end.

(** The normalisation loop over [fields.items()]: [None] when a key
    does not decode, which the source catches to skip the entry. *)
Fixpoint normalize (fields : Fields) (norm : gmap string rstr)
    : option (gmap string rstr) :=
  match fields with
  | [] => Some norm
  | (k, v) :: rest =>
      match (match k with
             | Bytes b => utf8_decode b
             | Str s => Some s
             end) with
      | None => None
      | Some key =>
          let val := match v with
                     | Bytes b => match utf8_decode b with
                                  | Some s => Str s
                                  | None => v
                                  end
                     | Str _ => v
                     end in
          normalize rest (<[key := val]> norm)
      end
  end.

(** [json.loads] on a [str] payload, the payload itself otherwise. *)
Definition load_payload (raw_payload : rstr) : Payload Data :=
  match raw_payload with
  | Str s => match json_loads s with
             | Some d => PData d
             | None => PRaw raw_payload
             end
  | Bytes _ => PRaw raw_payload
  end.

(** [_TYPE_MAP.get(evt_type)] *)
Definition model_of (evt_type : option rstr) : option Model :=
  match evt_type with
  | Some (Str s) => _TYPE_MAP s
  | _ => None
  end.

Definition is_close_tag (evt_type : option rstr) : bool :=
  bool_decide (evt_type = Some (Str "CLOSE")).

(** The [while True] loop of [dequeue_event]; [None] when [fuel]
    iterations did not reach a [return] or a [raise]. *)
Fixpoint dequeue_loop (fuel : nat) (self : t) (r : Redis) (block : Z)
    (logs : list LogRecord)
    : option (outcome Returned * t * list LogRecord) :=
  match fuel with
  | O => None
  | S fuel' =>
      match FakeRedis.xread r (_stream_key self) (_last_id self) block (Some 1%nat) with
      | Raise e =>
          Some (Raise e, self,
                (logs ++ [log_exception "Failed to XREAD from redis stream"]))
      | Return [] => Some (Raise (QueueEmpty ""), self, logs)
      | Return ((_, []) :: _) => Some (Raise IndexError, self, logs)
      | Return ((_, (entry_id, fields) :: _) :: _) =>
          let self := set_last_id self (Id entry_id) in
          match normalize fields ∅ with
          | None =>
              dequeue_loop fuel' self r block
                (logs ++ [log_debug "RedisEventQueue.dequeue_event: failed to normalize entry fields, skipping %s"])
          | Some norm =>
              let evt_type := norm !! "type" in
              if is_close_tag evt_type then
                Some (Raise (QueueEmpty "Queue closed"), set_is_closed self true, logs)
              else
                match norm !! "payload" with
                | None =>
                    dequeue_loop fuel' self r block
                      (logs ++ [log_debug "RedisEventQueue.dequeue_event: skipping entry %s with missing payload"])
                | Some raw_payload =>
                    let data := load_payload raw_payload in
                    match model_of evt_type with
                    | Some model =>
                        match parse_obj model data with
                        | Some e => Some (Return (Parsed e), self, logs)
                        | None =>
                            Some (Return (Unparsed data), self,
                                  (logs ++ [log_exception "Failed to parse event payload into model"]))
                        end
                    | None => Some (Return (Unparsed data), self, logs)
                    end
                end
          end
      end
  end.

(** Every iteration that loops consumes one entry of the stream, so
    one more iteration than the stream has entries is enough. *)
Definition dequeue_fuel (self : t) (r : Redis) : nat :=
  S (length (FakeRedis.stream r (_stream_key self))).

Definition dequeue_event (self : t) (r : Redis) (no_wait : bool)
    : option (outcome Returned * t * list LogRecord) :=
  if _is_closed self then
    Some (Raise (QueueEmpty "Queue is closed"), self, [])
  else
    let block := if no_wait then 0 else _read_block_ms self in
    dequeue_loop (dequeue_fuel self r) self r block [].

End WithRuntime.

(** [lst[-1][0]] of a non-empty list *)
Definition last_entry_id (lst : list Entry) : nat :=
  match last lst with
  | Some e => e.1
  | None => O
  end.

Definition tap (self : t) (r : Redis) : t :=
  let q := __init__ (_task_id self) (rsplit_head (_stream_key self))
                    (_maxlen self) (_read_block_ms self) in
  match streams_attr r with
  | NoAttr => set_last_id q (Id 0)
  | DictAttr =>
      match FakeRedis.stream r (_stream_key self) with
      | [] => set_last_id q (Id 0)
      | lst => set_last_id q (Id (last_entry_id lst))
      end
  | OpaqueAttr => set_last_id q Dollar
  end.

Definition close (self : t) (r : Redis) (immediate : bool)
    : outcome unit * Redis * list LogRecord :=
  let failed := [log_exception "Failed to write close marker to redis"] in
  match FakeRedis.set r (_stream_key self +:+ ":closed") "1" with
  | (Raise RedisError, r1) => (Return (), r1, failed)
  | (Raise e, r1) => (Raise e, r1, [])
  | (Return _, r1) =>
      match FakeRedis.xadd r1 (_stream_key self) [(Str "type", Str "CLOSE")] None with
      | (Raise RedisError, r2) => (Return (), r2, failed)
      | (Raise e, r2) => (Raise e, r2, [])
      | (Return _, r2) => (Return (), r2, [])
      end
  end.

Definition clear_events (self : t) (r : Redis) (clear_child_queues : bool)
    : outcome unit * Redis * list LogRecord :=
  match FakeRedis.delete r (_stream_key self) with
  | (Raise RedisError, r') =>
      (Return (), r', [log_exception "Failed to delete redis stream during clear_events"])
  | (Raise e, r') => (Raise e, r', [])
  | (Return _, r') => (Return (), r', [])
  end.

End RedisEventQueue.

(** ** RedisEventConsumer *)

Module RedisEventConsumer.

(** Where the generator [consume_all] stands between two resumptions. *)
Inductive Position :=
| LoopHead      (* created, not yet started *)
| AtYield       (* suspended at [yield event] *)
| Exhausted.    (* returned, or an exception escaped *)

Section WithRuntime.
Context `{Runtime}.

Definition consume_one (queue : RedisEventQueue.t) (r : Redis)
    : option (outcome Returned * RedisEventQueue.t * list LogRecord) :=
  RedisEventQueue.dequeue_event queue r true.

(** What one [anext] on the generator gives. *)
Inductive Resumed :=
| Yield (event : Returned)
| StopAsyncIteration
| Propagated (e : exn).

(** The [while True] loop from its head. Other tasks may append to the
    stream while the loop polls: [env i] is the redis client as the
    [i]-th call of [dequeue_event] finds it. [None] when [fuel]
    iterations reached neither a [yield] nor the end of the generator. *)
Fixpoint consume_loop (fuel : nat) (queue : RedisEventQueue.t)
    (env : nat -> Redis) (i : nat)
    : option (Resumed * Position * RedisEventQueue.t) :=
  match fuel with
  | O => None
  | S fuel' =>
      match RedisEventQueue.dequeue_event queue (env i) false with
      | None => None
      | Some (Return event, queue', _) => Some (Yield event, AtYield, queue')
      | Some (Raise (QueueEmpty _), queue', _) =>
          consume_loop fuel' queue' env (S i)
      | Some (Raise e, queue', _) => Some (Propagated e, Exhausted, queue')
      end
  end.

(** One resumption of [consume_all] from position [pos]. *)
Definition anext (fuel : nat) (pos : Position) (queue : RedisEventQueue.t)
    (env : nat -> Redis)
    : option (Resumed * Position * RedisEventQueue.t) :=
  match pos with
  | Exhausted => Some (StopAsyncIteration, Exhausted, queue)
  | AtYield =>
      if RedisEventQueue.is_closed queue
      then Some (StopAsyncIteration, Exhausted, queue)
      else consume_loop fuel queue env O
  | LoopHead => consume_loop fuel queue env O
  end.

End WithRuntime.

End RedisEventConsumer.

(** ** RedisQueueManager *)

Module RedisQueueManager.

(** Queue objects live in a heap; the registry [_task_queue] maps a task
    id to a reference, so that the object registered and the object
    handed to the first caller are one and the same. *)
Record t := mk {
  _stream_prefix : string;
  _task_queue : gmap string nat
}.

Definition __init__ (stream_prefix : string) : t := mk stream_prefix ∅.

Definition set_task_queue (self : t) (m : gmap string nat) : t :=
  mk (_stream_prefix self) m.

(** Allocation of a new object. *)
Definition alloc (h : gmap nat RedisEventQueue.t) (q : RedisEventQueue.t)
    : nat * gmap nat RedisEventQueue.t :=
  let l := fresh (dom h) in (l, <[l := q]> h).

Definition add (self : t) (task_id : string) (queue : nat) : outcome unit * t :=
  match _task_queue self !! task_id with
  | Some _ => (Raise TaskQueueExists, self)
  | None => (Return (), set_task_queue self (<[task_id := queue]> (_task_queue self)))
  end.

Definition get (self : t) (task_id : string) : option nat :=
  _task_queue self !! task_id.

(** [tap], [close] and [create_or_tap] dereference a registered
    reference; the outer [option] is [None] only for a reference that is
    not in the heap, which no Python program can build. *)
Definition tap (self : t) (h : gmap nat RedisEventQueue.t) (r : Redis)
    (task_id : string) : option (option nat * gmap nat RedisEventQueue.t) :=
  match _task_queue self !! task_id with
  | None => Some (None, h)
  | Some l =>
      match h !! l with
      | None => None
      | Some q =>
          let '(l', h') := alloc h (RedisEventQueue.tap q r) in
          Some (Some l', h')
      end
  end.

Definition close (self : t) (h : gmap nat RedisEventQueue.t) (r : Redis)
    (task_id : string) : option (outcome unit * t * Redis * list LogRecord) :=
  match _task_queue self !! task_id with
  | None => Some (Raise NoTaskQueue, self, r, [])
  | Some l =>
      match h !! l with
      | None => None
      | Some queue =>
          let self' := set_task_queue self (delete task_id (_task_queue self)) in
          let '(res, r', logs) := RedisEventQueue.close queue r false in
          Some (res, self', r', logs)
      end
  end.

Definition create_or_tap (self : t) (h : gmap nat RedisEventQueue.t)
    (r : Redis) (task_id : string)
    : option (nat * t * gmap nat RedisEventQueue.t) :=
  match _task_queue self !! task_id with
  | None =>
      let queue := RedisEventQueue.__init__ task_id (_stream_prefix self) None
                     RedisEventQueue.default_read_block_ms in
      let '(l, h') := alloc h queue in
      Some (l, set_task_queue self (<[task_id := l]> (_task_queue self)), h')
  | Some l =>
      match h !! l with
      | None => None
      | Some q =>
          let '(l', h') := alloc h (RedisEventQueue.tap q r) in
          Some (l', self, h')
      end
  end.

(** Every registered reference points into the heap. *)
Definition heap_ok (self : t) (h : gmap nat RedisEventQueue.t) : Prop :=
  ∀ task_id l, _task_queue self !! task_id = Some l → is_Some (h !! l).

(** [n] calls of [create_or_tap] for one task, collecting what each
    returned. *)
Fixpoint create_or_tap_many (n : nat) (self : t)
    (h : gmap nat RedisEventQueue.t) (r : Redis) (task_id : string)
    : option (list nat * t * gmap nat RedisEventQueue.t) :=
  match n with
  | O => Some ([], self, h)
  | S n' =>
      match create_or_tap self h r task_id with
      | None => None
      | Some (l, self', h') =>
          match create_or_tap_many n' self' h' r task_id with
          | None => None
          | Some (ls, self'', h'') => Some (l :: ls, self'', h'')
          end
      end
  end.

End RedisQueueManager.

(** ** A concrete runtime for closed examples

    Events are a class name with a JSON text, as the dummy [MessageEvent]
    of the queue's tests is. [json.loads] rejects the empty text, the
    models reject the object [{}] and anything that is not loaded JSON,
    and only 7-bit bytes decode. *)

Module Sample.

Definition model_name (m : Model) : string :=
  match m with
  | Message => "Message"
  | Task => "Task"
  | TaskStatusUpdateEvent => "TaskStatusUpdateEvent"
  | TaskArtifactUpdateEvent => "TaskArtifactUpdateEvent"
  end.

Definition loads (s : string) : option string :=
  if String.eqb s "" then None else Some s.

Definition decode (b : list byte) : option string :=
  if forallb (λ x, N.ltb (Byte.to_N x) 128) b
  then Some (String.string_of_list_byte b) else None.

Definition parse (m : Model) (p : Payload string) : option (string * string) :=
  match p with
  | PData d => if String.eqb d "{}" then None else Some (model_name m, d)
  | PRaw _ => None
  end.

Global Instance runtime : Runtime := {|
  Event := string * string;
  class_name := fst;
  to_json := snd;
  Data := string;
  json_loads := loads;
  utf8_decode := decode;
  parse_obj := parse
|}.

(** An instance of class [name] whose [json()] is [text]. *)
Definition event (name text : string) : @Event runtime := (name, text).

(** A queue as the tests build it:
    [RedisEventQueue(task, redis, stream_prefix='a2a:test', read_block_ms=10)]. *)
Definition queue (task_id : string) : RedisEventQueue.t :=
  RedisEventQueue.__init__ task_id "a2a:test" None 10.

(** A client of the [redis.asyncio] kind: it has no [streams] attribute. *)
Definition aioredis : Redis := mkRedis ∅ NoAttr false.

End Sample.

(** ** Vocabulary of the statements *)

(** Entry identifiers as [xadd] hands them out: the [i]-th entry of a
    stream (from 0) has identifier [i+1]. *)
Definition wf_stream (lst : list Entry) : Prop :=
  ∀ i e, lst !! i = Some e → e.1 = S i.

(** The entries a read from cursor [last_id] selects. *)
Definition pending (lst : list Entry) (last_id : LastId) : list Entry :=
  filter (λ e : Entry, (FakeRedis.last_num lst last_id < e.1)%nat) lst.

Section Vocabulary.
Context `{Runtime}.

(** The fields [enqueue_event] writes for [event]. *)
Definition entry_fields (event : Event) : Fields :=
  [(Str "type", Str (class_name event)); (Str "payload", Str (to_json event))].

(** The fields [close] writes. *)
Definition tombstone : Fields := [(Str "type", Str "CLOSE")].

(** A sequence of [enqueue_event] calls on one handle. *)
Fixpoint enqueue_all (q : RedisEventQueue.t) (r : Redis) (events : list Event)
    : Redis :=
  match events with
  | [] => r
  | e :: rest => enqueue_all q (RedisEventQueue.enqueue_event q r e).1.2 rest
  end.

(** [n] successive [dequeue_event(no_wait=True)] calls on one handle,
    with the outcome of each. *)
Fixpoint dequeue_many (n : nat) (q : RedisEventQueue.t) (r : Redis)
    : option (list (outcome Returned) * RedisEventQueue.t) :=
  match n with
  | O => Some ([], q)
  | S n' =>
      match RedisEventQueue.dequeue_event q r true with
      | None => None
      | Some (o, q', _) =>
          match dequeue_many n' q' r with
          | None => None
          | Some (os, q'') => Some (o :: os, q'')
          end
      end
  end.

(** The entries that enqueuing [events] adds to a stream of [n] entries. *)
Fixpoint entries_from (n : nat) (events : list Event) : list Entry :=
  match events with
  | [] => []
  | e :: rest => (S n, entry_fields e) :: entries_from (S n) rest
  end.

(** [event] is of a kind [_TYPE_MAP] knows, its [json()] text loads, and
    the model parses the loaded data back into [event]. *)
Definition round_trips (event : Event) : Prop :=
  ∃ m d, _TYPE_MAP (class_name event) = Some m
         ∧ json_loads (to_json event) = Some d
         ∧ parse_obj m (PData d) = Some event.

(** The operations of a handle, and the handle and client each leaves.
    [tap] builds another handle and assigns nothing on this one. *)
Inductive Op :=
| OpEnqueue (event : Event)
| OpDequeue (no_wait : bool)
| OpTaskDone
| OpTap
| OpIsClosed
| OpClose (immediate : bool)
| OpClearEvents (clear_child_queues : bool).

Definition run_op (op : Op) (q : RedisEventQueue.t) (r : Redis)
    : option (RedisEventQueue.t * Redis) :=
  match op with
  | OpEnqueue e => Some (q, (RedisEventQueue.enqueue_event q r e).1.2)
  | OpDequeue nw =>
      match RedisEventQueue.dequeue_event q r nw with
      | Some (_, q', _) => Some (q', r)
      | None => None
      end
  | OpTaskDone => Some (RedisEventQueue.task_done q, r)
  | OpTap => Some (q, r)
  | OpIsClosed => Some (q, r)
  | OpClose imm => Some (q, (RedisEventQueue.close q r imm).1.2)
  | OpClearEvents c => Some (q, (RedisEventQueue.clear_events q r c).1.2)
  end.

(** One step of a handle's life: some operation is called on it, against
    whatever the redis client holds at that time. *)
Definition handle_step (q q' : RedisEventQueue.t) : Prop :=
  ∃ op r r', run_op op q r = Some (q', r').

(** What one iteration of the loop of [dequeue_event] does with the
    fields of the entry it read. *)
Inductive Verdict :=
| Skip (log : LogRecord)
| Tombstone
| Deliver (ret : Returned) (logs : list LogRecord).

Definition classify (fields : Fields) : Verdict :=
  match RedisEventQueue.normalize fields ∅ with
  | None =>
      Skip (log_debug "RedisEventQueue.dequeue_event: failed to normalize entry fields, skipping %s")
  | Some norm =>
      if RedisEventQueue.is_close_tag (norm !! "type") then Tombstone
      else
        match norm !! "payload" with
        | None =>
            Skip (log_debug "RedisEventQueue.dequeue_event: skipping entry %s with missing payload")
        | Some raw =>
            let data := RedisEventQueue.load_payload raw in
            match RedisEventQueue.model_of (norm !! "type") with
            | Some model =>
                match parse_obj model data with
                | Some e => Deliver (Parsed e) []
                | None =>
                    Deliver (Unparsed data)
                      [log_exception "Failed to parse event payload into model"]
                end
            | None => Deliver (Unparsed data) []
            end
        end
  end.

(** Adds a log record in front of those of a result. *)
Definition with_logs (pre : list LogRecord)
    (res : option (outcome Returned * RedisEventQueue.t * list LogRecord))
    : option (outcome Returned * RedisEventQueue.t * list LogRecord) :=
  match res with
  | Some (o, q, logs) => Some (o, q, (pre ++ logs))
  | None => None
  end.

End Vocabulary.

(** ** Draining a stream *)

Section Draining.
Context `{Runtime}.

(** What a reader that starts before [entries] is handed, call after call:
    the value of each entry that delivers one, up to the first tombstone. *)
Fixpoint deliveries (entries : list Entry) : list Returned :=
  match entries with
  | [] => []
  | (_, f) :: rest =>
      match classify f with
      | Deliver ret _ => ret :: deliveries rest
      | Skip _ => deliveries rest
      | Tombstone => []
      end
  end.

(** Whether [entries] hold a tombstone. *)
Fixpoint has_tombstone (entries : list Entry) : bool :=
  match entries with
  | [] => false
  | (_, f) :: rest =>
      match classify f with
      | Tombstone => true
      | _ => has_tombstone rest
      end
  end.

(** The message of the [QueueEmpty] that ends a drain. *)
Definition exhausted_message (closed : bool) : string :=
  if closed then "Queue closed" else "".

(** The normalised form of a field as the loop of [dequeue_event] builds
    it, when its name decodes. *)
Definition decode_field (kv : rstr * rstr) : option (rstr * rstr) :=
  match (match kv.1 with
         | Bytes b => utf8_decode b
         | Str s => Some s
         end) with
  | None => None
  | Some key =>
      Some (Str key,
            match kv.2 with
            | Bytes b => match utf8_decode b with
                         | Some s => Str s
                         | None => kv.2
                         end
            | Str _ => kv.2
            end)
  end.

End Draining.

(** The attributes of a handle that no read touches. *)
Definition same_static (q q' : RedisEventQueue.t) : Prop :=
  RedisEventQueue._task_id q' = RedisEventQueue._task_id q
  ∧ RedisEventQueue._stream_key q' = RedisEventQueue._stream_key q
  ∧ RedisEventQueue._maxlen q' = RedisEventQueue._maxlen q
  ∧ RedisEventQueue._read_block_ms q' = RedisEventQueue._read_block_ms q.

(** A handle as the constructor keys it: on the stream [prefix:task_id],
    for a task id without colon. *)
Definition well_keyed (stream_prefix : string) (q : RedisEventQueue.t) : Prop :=
  RedisEventQueue._stream_key q
  = stream_prefix +:+ ":" +:+ RedisEventQueue._task_id q
  ∧ has_colon (RedisEventQueue._task_id q) = false.

(** The handles that come from [q0] by reads and taps. *)
Inductive descends `{Runtime} (q0 : RedisEventQueue.t) : RedisEventQueue.t → Prop :=
| descends_refl : descends q0 q0
| descends_tap q r : descends q0 q → descends q0 (RedisEventQueue.tap q r)
| descends_read q r no_wait o q' logs :
    descends q0 q →
    RedisEventQueue.dequeue_event q r no_wait = Some (o, q', logs) →
    descends q0 q'.

(** ** StreamInjector *)

(** What the injector needs of the runtime besides the queue's needs. *)
Class InjectorRuntime `{Runtime} := {
  json_dumps : Data -> string;          (* json.dumps(data, default=str) *)
  model_dump_json : Event -> string     (* message.model_dump_json() *)
}.

Module StreamInjector.

Inductive error :=
| ValueError (msg : string)
| RuntimeError (msg : string)
| JSONDecodeError
| Storage (e : exn).          (* what the redis client raised *)

Inductive result (A : Type) :=
| Ok (a : A)
| Err (e : error).
Arguments Ok {A} a.
Arguments Err {A} e.

(** [_client] is [None] or a client; the client itself is the [Redis]
    value the methods are run against. The [ImportError] guard of the
    constructor is for a missing [redis] package. *)
Record t := mk {
  redis_url : string;
  _client : bool;
  _connected : bool
}.

Definition __init__ (redis_url : string) : t := mk redis_url false false.

Definition default_redis_url : string := "redis://localhost:6379/0".

(** [connect]: the client is built, then pinged; a ping on a client that
    is down raises, which is re-raised. The log records of the injector
    are left out. *)
Definition connect (self : t) (r : Redis) : result unit * t :=
  if _connected self then (Ok (), self)
  else
    let self := mk (redis_url self) true (_connected self) in
    if down r then (Err (Storage RedisError), self)
    else (Ok (), mk (redis_url self) true true).

Definition disconnect (self : t) : t :=
  if _client self && _connected self then mk (redis_url self) false false
  else self.

Definition _get_stream_key (task_id : string) : result string :=
  if String.eqb task_id "" then Err (ValueError "task_id cannot be empty")
  else Ok ("a2a:task:" +:+ task_id).

Definition _append_to_stream (self : t) (r : Redis) (task_id : string)
    (event_data : Fields) : result nat * Redis :=
  if negb (_connected self) || negb (_client self) then
    (Err (RuntimeError "Not connected to Redis. Call connect() first."), r)
  else
    match _get_stream_key task_id with
    | Err e => (Err e, r)
    | Ok stream_key =>
        match FakeRedis.xadd r stream_key event_data None with
        | (Return entry_id, r') => (Ok entry_id, r')
        | (Raise e, r') => (Err (Storage e), r')
        end
    end.

Section WithRuntime.
Context `{InjectorRuntime}.

Definition _serialize_event (event_type : string) (data : Data)
    (context_id task_id : string) : Fields :=
  [(Str "type", Str event_type); (Str "payload", Str (json_dumps data))].

(** [message] is a dict (left) or a [Message] model (right). *)
Definition stream_message (self : t) (r : Redis) (context_id task_id : string)
    (message : Data + Event) : result nat * Redis :=
  if String.eqb task_id "" then (Err (ValueError "task_id cannot be empty"), r)
  else if String.eqb context_id "" then
    (Err (ValueError "context_id cannot be empty"), r)
  else
    match (match message with
           | inl d => Some d
           | inr m => json_loads (model_dump_json m)
           end) with
    | None => (Err JSONDecodeError, r)
    | Some data =>
        _append_to_stream self r task_id
          (_serialize_event "Message" data context_id task_id)
    end.

End WithRuntime.

(** [append_raw]; [now] is [datetime.now(timezone.utc).isoformat()]. *)
Definition append_raw (self : t) (r : Redis) (task_id event_type payload : string)
    (now : string) : result nat * Redis :=
  if String.eqb task_id "" then (Err (ValueError "task_id cannot be empty"), r)
  else
    _append_to_stream self r task_id
      [(Str "type", Str event_type); (Str "payload", Str payload);
       (Str "timestamp", Str now); (Str "task_id", Str task_id)].

End StreamInjector.

(** A client for closed examples: on the stream of task [t1] a message, an
    entry without payload, an entry of an unknown kind, a tombstone and a
    message after it. *)
Definition sample_noisy_client : Redis :=
  mkRedis {[ "a2a:test:t1" :=
               [(1%nat, [(Str "type", Str "Message"); (Str "payload", Str "{A}")]);
                (2%nat, [(Str "type", Str "Message")]);
                (3%nat, [(Str "type", Str "Bogus"); (Str "payload", Str "{B}")]);
                (4%nat, [(Str "type", Str "CLOSE")]);
                (5%nat, [(Str "type", Str "Message"); (Str "payload", Str "{C}")])] ]}
    DictAttr false.

(** The states an injector goes through: it is connected only with a
    client. *)
Definition injector_ok (inj : StreamInjector.t) : Prop :=
  StreamInjector._connected inj = true → StreamInjector._client inj = true.

(** The injector's part of the runtime for closed examples: [json.dumps]
    and [model_dump_json] give the JSON text back. *)
Global Instance sample_injector_runtime : @InjectorRuntime Sample.runtime :=
  @Build_InjectorRuntime Sample.runtime (λ d, d) snd.

(** * Properties *)

(** ** The client *)

Lemma wf_stream_nil : wf_stream [].
Proof. intros i e Hi. by rewrite lookup_nil in Hi. Qed.

Lemma wf_stream_snoc lst f :
  wf_stream lst → wf_stream (lst ++ [(S (length lst), f)]).
Proof.
  intros Hwf i e Hi.
  destruct (decide (i < length lst)%nat) as [Hlt|Hge].
  - rewrite lookup_app_l in Hi by done. by apply Hwf.
  - assert (Hle : (length lst <= i)%nat) by lia.
    rewrite lookup_app_r in Hi by done.
    apply list_lookup_singleton_Some in Hi as [Hk <-]. simpl. lia.
Qed.

Lemma wf_stream_app_inv l1 l2 : wf_stream (l1 ++ l2) → wf_stream l1.
Proof.
  intros Hwf i e Hi. apply Hwf.
  rewrite lookup_app_l; [done|]. by eapply lookup_lt_Some.
Qed.

Lemma filter_Forall_all {A} (P : A → Prop) `{!∀ x, Decision (P x)} (l : list A) :
  Forall P l → filter P l = l.
Proof.
  induction 1 as [|x l Hx _ IH]; [done|].
  by rewrite filter_cons_True, IH.
Qed.

Lemma filter_Forall_none {A} (P : A → Prop) `{!∀ x, Decision (P x)} (l : list A) :
  Forall (λ x, ¬ P x) l → filter P l = [].
Proof.
  induction 1 as [|x l Hx _ IH]; [done|].
  by rewrite filter_cons_False.
Qed.

(** On a well-formed stream the entries after identifier [n] are those
    from position [n] on. *)
Lemma wf_filter_drop lst n :
  wf_stream lst → filter (λ e : Entry, (n < e.1)%nat) lst = drop n lst.
Proof.
  intros Hwf.
  rewrite <- (take_drop n lst) at 1.
  rewrite filter_app.
  assert (Hl : filter (λ e : Entry, (n < e.1)%nat) (take n lst) = []).
  { apply filter_Forall_none, Forall_lookup. intros i e Hi.
    apply lookup_take_Some in Hi as [Hi Hlt].
    apply Hwf in Hi. lia. }
  assert (Hr : filter (λ e : Entry, (n < e.1)%nat) (drop n lst) = drop n lst).
  { apply filter_Forall_all, Forall_lookup. intros i e Hi.
    rewrite lookup_drop in Hi. apply Hwf in Hi. lia. }
  by rewrite Hl, Hr.
Qed.

Lemma pending_wf lst n :
  wf_stream lst → pending lst (Id n) = drop n lst.
Proof. intros. unfold pending. simpl. by apply wf_filter_drop. Qed.

(** What a [count=1] read returns: the first pending entry, if any. *)
Lemma xread_one r key last_id block :
  down r = false →
  FakeRedis.xread r key last_id block (Some 1%nat)
  = Return match pending (FakeRedis.stream r key) last_id with
           | [] => []
           | e :: _ => [(key, [e])]
           end.
Proof.
  intros Hup. unfold FakeRedis.xread, pending. rewrite Hup.
  by destruct (filter _ _).
Qed.

Lemma xread_down r key last_id block count :
  down r = true → FakeRedis.xread r key last_id block count = Raise RedisError.
Proof. intros Hd. unfold FakeRedis.xread. by rewrite Hd. Qed.

(** ** The read loop *)

Section DequeueLoop.
Context `{Runtime}.
Import RedisEventQueue.

Implicit Types (q : RedisEventQueue.t) (r : Redis) (logs : list LogRecord).

Lemma with_logs_app pre1 pre2 res :
  with_logs (pre1 ++ pre2) res = with_logs pre1 (with_logs pre2 res).
Proof. destruct res as [[[o q] l]|]; simpl; [|done]. by rewrite app_assoc. Qed.

Lemma with_logs_nil res : with_logs [] res = res.
Proof. by destruct res as [[[o q] l]|]. Qed.

(** One iteration, when the client is down. *)
Lemma dequeue_loop_down fuel q r block logs :
  down r = true →
  dequeue_loop (S fuel) q r block logs
  = Some (Raise RedisError, q,
          (logs ++ [log_exception "Failed to XREAD from redis stream"])).
Proof. intros Hd. simpl. by rewrite xread_down. Qed.

(** One iteration, when nothing is pending. *)
Lemma dequeue_loop_empty fuel q r block logs :
  down r = false →
  pending (FakeRedis.stream r (_stream_key q)) (_last_id q) = [] →
  dequeue_loop (S fuel) q r block logs = Some (Raise (QueueEmpty ""), q, logs).
Proof. intros Hup Hp. simpl. by rewrite xread_one, Hp. Qed.

(** One iteration, when entry [(i, f)] is the first pending one. *)
Lemma dequeue_loop_step fuel q r block logs i f rest :
  down r = false →
  pending (FakeRedis.stream r (_stream_key q)) (_last_id q) = (i, f) :: rest →
  dequeue_loop (S fuel) q r block logs
  = match classify f with
    | Skip l => dequeue_loop fuel (set_last_id q (Id i)) r block (logs ++ [l])
    | Tombstone =>
        Some (Raise (QueueEmpty "Queue closed"),
              set_is_closed (set_last_id q (Id i)) true, logs)
    | Deliver ret ls => Some (Return ret, set_last_id q (Id i), (logs ++ ls))
    end.
Proof.
  intros Hup Hp. simpl. rewrite xread_one, Hp by done. unfold classify.
  destruct (normalize f ∅) as [norm|]; [|done].
  destruct (is_close_tag (norm !! "type")); [done|].
  destruct (norm !! "payload") as [raw|]; [|done].
  destruct (model_of (norm !! "type")) as [m|]; [|by rewrite app_nil_r].
  destruct (parse_obj m (load_payload raw)); [by rewrite app_nil_r|done].
Qed.

(** The log records already emitted are carried along unchanged. *)
Lemma dequeue_loop_logs fuel q r block logs :
  dequeue_loop fuel q r block logs = with_logs logs (dequeue_loop fuel q r block []).
Proof.
  revert q logs. induction fuel as [|fuel IH]; intros q logs; [done|].
  destruct (down r) eqn:Hd.
  { rewrite !dequeue_loop_down by done. done. }
  destruct (pending (FakeRedis.stream r (_stream_key q)) (_last_id q))
    as [|[i f] rest] eqn:Hp.
  { rewrite !dequeue_loop_empty by done. simpl. by rewrite app_nil_r. }
  rewrite !(dequeue_loop_step _ _ _ _ _ i f rest) by done.
  destruct (classify f) as [l| |ret ls]; simpl.
  - rewrite (IH _ (logs ++ [l])), (IH _ [l]). apply with_logs_app.
  - by rewrite app_nil_r.
  - done.
Qed.

(** More fuel does not change a result. *)
Lemma dequeue_loop_mono fuel fuel' q r block logs x :
  dequeue_loop fuel q r block logs = Some x →
  (fuel ≤ fuel')%nat →
  dequeue_loop fuel' q r block logs = Some x.
Proof.
  revert fuel' q logs. induction fuel as [|fuel IH]; intros fuel' q logs Hx Hle; [done|].
  destruct fuel' as [|fuel']; [lia|].
  destruct (down r) eqn:Hd.
  { rewrite dequeue_loop_down in Hx by done. by rewrite dequeue_loop_down. }
  destruct (pending (FakeRedis.stream r (_stream_key q)) (_last_id q))
    as [|[i f] rest] eqn:Hp.
  { rewrite dequeue_loop_empty in Hx by done. by rewrite dequeue_loop_empty. }
  rewrite (dequeue_loop_step _ _ _ _ _ i f rest) in Hx by done.
  rewrite (dequeue_loop_step _ _ _ _ _ i f rest) by done.
  destruct (classify f); [|done..].
  apply IH with (fuel' := fuel') in Hx; [done|lia].
Qed.

(** Reading an entry leaves strictly fewer entries pending. *)
Lemma pending_shrinks lst c i f rest :
  pending lst c = (i, f) :: rest →
  (length (pending lst (Id i)) ≤ length rest)%nat.
Proof.
  unfold pending. simpl. set (n := FakeRedis.last_num lst c). intros Hp.
  assert (Hin : (n < i)%nat).
  { assert (Hel : (i, f) ∈ filter (λ e : Entry, (n < e.1)%nat) lst)
      by (rewrite Hp; left).
    by apply list_elem_of_filter in Hel as [? _]. }
  assert (Heq : filter (λ e : Entry, (i < e.1)%nat) lst
                = filter (λ e : Entry, (i < e.1)%nat)
                    (filter (λ e : Entry, (n < e.1)%nat) lst)).
  { rewrite list_filter_filter. apply list_filter_iff. intros e. lia. }
  rewrite Heq, Hp, filter_cons_False by (simpl; lia).
  apply length_filter.
Qed.

(** The loop ends whenever it has more fuel than entries pending. *)
Lemma dequeue_loop_total fuel q r block logs :
  (length (pending (FakeRedis.stream r (_stream_key q)) (_last_id q)) < fuel)%nat →
  is_Some (dequeue_loop fuel q r block logs).
Proof.
  revert q logs. induction fuel as [|fuel IH]; intros q logs Hlt; [lia|].
  destruct (down r) eqn:Hd.
  { rewrite dequeue_loop_down by done. eauto. }
  destruct (pending (FakeRedis.stream r (_stream_key q)) (_last_id q))
    as [|[i f] rest] eqn:Hp.
  { rewrite dequeue_loop_empty by done. eauto. }
  rewrite (dequeue_loop_step _ _ _ _ _ i f rest) by done.
  destruct (classify f); [|eauto..].
  apply IH. simpl. apply pending_shrinks in Hp. simpl in Hlt. lia.
Qed.

Lemma pending_length lst c : (length (pending lst c) ≤ length lst)%nat.
Proof. apply length_filter. Qed.

(** [dequeue_event] always comes back: with a value or an exception. *)
Lemma dequeue_event_total q r no_wait : is_Some (dequeue_event q r no_wait).
Proof.
  unfold dequeue_event. destruct (_is_closed q); [eauto|].
  apply dequeue_loop_total. unfold dequeue_fuel.
  pose proof (pending_length (FakeRedis.stream r (_stream_key q)) (_last_id q)). lia.
Qed.

End DequeueLoop.

(** ** Single calls of [enqueue_event] and [dequeue_event] *)

Section QueueCalls.
Context `{Runtime}.
Import RedisEventQueue.

Implicit Types (q : RedisEventQueue.t) (r : Redis) (e : Event).

Lemma set_last_id_same q : set_last_id q (_last_id q) = q.
Proof. by destruct q. Qed.

Lemma dequeue_event_closed q r no_wait :
  _is_closed q = true →
  dequeue_event q r no_wait = Some (Raise (QueueEmpty "Queue is closed"), q, []).
Proof. intros Hc. unfold dequeue_event. by rewrite Hc. Qed.

Lemma dequeue_event_down q r no_wait :
  _is_closed q = false → down r = true →
  dequeue_event q r no_wait
  = Some (Raise RedisError, q, [log_exception "Failed to XREAD from redis stream"]).
Proof.
  intros Ho Hd. unfold dequeue_event, dequeue_fuel. rewrite Ho.
  by rewrite dequeue_loop_down.
Qed.

Lemma dequeue_event_empty q r no_wait :
  _is_closed q = false → down r = false →
  pending (FakeRedis.stream r (_stream_key q)) (_last_id q) = [] →
  dequeue_event q r no_wait = Some (Raise (QueueEmpty ""), q, []).
Proof.
  intros Ho Hup Hp. unfold dequeue_event, dequeue_fuel. rewrite Ho.
  by apply dequeue_loop_empty.
Qed.

(** A call whose first pending entry is [(i, f)]: the entry is consumed,
    and either ends the call or is skipped, the call going on as one
    made with the cursor on [i]. *)
Lemma dequeue_event_step q r no_wait i f rest :
  _is_closed q = false → down r = false →
  pending (FakeRedis.stream r (_stream_key q)) (_last_id q) = (i, f) :: rest →
  dequeue_event q r no_wait
  = match classify f with
    | Skip l => with_logs [l] (dequeue_event (set_last_id q (Id i)) r no_wait)
    | Tombstone =>
        Some (Raise (QueueEmpty "Queue closed"),
              set_is_closed (set_last_id q (Id i)) true, [])
    | Deliver ret ls => Some (Return ret, set_last_id q (Id i), ls)
    end.
Proof.
  intros Ho Hup Hp. unfold dequeue_event at 1. unfold dequeue_fuel. rewrite Ho.
  rewrite (dequeue_loop_step _ _ _ _ _ i f rest) by done.
  destruct (classify f) as [l| |ret ls]; [|done..].
  unfold dequeue_event, dequeue_fuel.
  change (_is_closed (set_last_id q (Id i))) with (_is_closed q).
  change (_read_block_ms (set_last_id q (Id i))) with (_read_block_ms q).
  change (_stream_key (set_last_id q (Id i))) with (_stream_key q).
  rewrite Ho.
  set (block := if no_wait then 0 else _read_block_ms q).
  set (lst := FakeRedis.stream r (_stream_key q)) in *.
  rewrite dequeue_loop_logs. change ([] ++ [l]) with [l]. f_equal.
  destruct (dequeue_loop_total (length lst) (set_last_id q (Id i)) r block [])
    as [x Hx].
  { change (_stream_key (set_last_id q (Id i))) with (_stream_key q).
    change (_last_id (set_last_id q (Id i))) with (Id i). fold lst.
    pose proof (pending_shrinks _ _ _ _ _ Hp) as Hs.
    pose proof (pending_length lst (_last_id q)) as Hl.
    rewrite Hp in Hl. simpl in Hl. lia. }
  rewrite Hx. symmetry. eapply dequeue_loop_mono; [exact Hx|lia].
Qed.

(** An append through an open handle to a client that is up. *)
Lemma enqueue_event_up q r e :
  _is_closed q = false → down r = false →
  enqueue_event q r e
  = (Return (),
     FakeRedis.with_streams r
       (<[_stream_key q :=
            FakeRedis.stream r (_stream_key q)
            ++ [(S (length (FakeRedis.stream r (_stream_key q))), entry_fields e)]]>
          (streams r)),
     []).
Proof. intros Ho Hup. unfold enqueue_event, FakeRedis.xadd. by rewrite Ho, Hup. Qed.

Lemma stream_with_streams_eq r key lst :
  FakeRedis.stream (FakeRedis.with_streams r (<[key := lst]> (streams r))) key = lst.
Proof. unfold FakeRedis.stream. simpl. by rewrite lookup_insert_eq. Qed.

Lemma stream_with_streams_ne r key key' lst :
  key ≠ key' →
  FakeRedis.stream (FakeRedis.with_streams r (<[key := lst]> (streams r))) key'
  = FakeRedis.stream r key'.
Proof. intros Hne. unfold FakeRedis.stream. simpl. by rewrite lookup_insert_ne. Qed.

(** What the loop makes of the fields [enqueue_event] wrote. *)
Lemma classify_entry_fields e :
  classify (entry_fields e)
  = if bool_decide (class_name e = "CLOSE") then Tombstone
    else
      let data := load_payload (Str (to_json e)) in
      match _TYPE_MAP (class_name e) with
      | Some m =>
          match parse_obj m data with
          | Some e' => Deliver (Parsed e') []
          | None =>
              Deliver (Unparsed data)
                [log_exception "Failed to parse event payload into model"]
          end
      | None => Deliver (Unparsed data) []
      end.
Proof.
  unfold classify, entry_fields. simpl.
  rewrite lookup_insert_ne, lookup_insert_eq by done.
  rewrite lookup_insert_eq. simpl.
  unfold is_close_tag.
  destruct (decide (class_name e = "CLOSE")) as [Heq|Hne].
  - rewrite !bool_decide_eq_true_2; [done|done|by rewrite Heq].
  - rewrite !bool_decide_eq_false_2; [done|done|congruence].
Qed.

Lemma round_trips_classify e :
  round_trips e → classify (entry_fields e) = Deliver (Parsed e) [].
Proof.
  intros (m & d & Hm & Hd & Hp). rewrite classify_entry_fields.
  rewrite bool_decide_eq_false_2.
  - simpl. by rewrite Hm, Hd, Hp.
  - intros Heq. rewrite Heq in Hm. discriminate Hm.
Qed.

(** The client after a sequence of appends through an open handle. *)
Lemma enqueue_all_up q r events :
  _is_closed q = false → down r = false →
  down (enqueue_all q r events) = false
  ∧ streams_attr (enqueue_all q r events) = streams_attr r
  ∧ FakeRedis.stream (enqueue_all q r events) (_stream_key q)
    = FakeRedis.stream r (_stream_key q)
      ++ entries_from (length (FakeRedis.stream r (_stream_key q))) events
  ∧ ∀ key, key ≠ _stream_key q →
      FakeRedis.stream (enqueue_all q r events) key = FakeRedis.stream r key.
Proof.
  intros Ho. revert r. induction events as [|e events IH]; intros r Hup.
  { simpl. by rewrite app_nil_r. }
  simpl. rewrite enqueue_event_up by done. simpl.
  set (r1 := FakeRedis.with_streams r _).
  destruct (IH r1 Hup) as (Hd & Ha & Hs & Ho').
  split; [done|]. split; [done|]. split.
  - rewrite Hs. unfold r1. rewrite stream_with_streams_eq.
    rewrite length_app. simpl. rewrite <- app_assoc. simpl.
    by rewrite Nat.add_1_r.
  - intros key Hne. rewrite Ho' by done. unfold r1.
    by rewrite stream_with_streams_ne.
Qed.

Lemma wf_entries_from pre events :
  wf_stream pre → wf_stream (pre ++ entries_from (length pre) events).
Proof.
  revert pre. induction events as [|e events IH]; intros pre Hwf.
  { by rewrite app_nil_r. }
  simpl. rewrite cons_middle, app_assoc.
  replace (S (length pre)) with (length (pre ++ [(S (length pre), entry_fields e)]))
    at 2 by (rewrite length_app; simpl; lia).
  apply IH. by apply wf_stream_snoc.
Qed.

End QueueCalls.

(** ** Append order and round trip *)

Section Fifo.
Context `{Runtime}.
Import RedisEventQueue.

Implicit Types (q : RedisEventQueue.t) (r : Redis) (e : Event).

(** A handle whose cursor stands after the entries [pre] of a stream
    that continues with the entries of [events] returns them one per
    call, in order. *)
Lemma dequeue_many_entries events : ∀ pre q r,
  _is_closed q = false → down r = false →
  FakeRedis.stream r (_stream_key q) = pre ++ entries_from (length pre) events →
  wf_stream (FakeRedis.stream r (_stream_key q)) →
  _last_id q = Id (length pre) →
  Forall round_trips events →
  dequeue_many (length events) q r
  = Some (map (λ e, Return (Parsed e)) events,
          set_last_id q (Id (length pre + length events))).
Proof.
  induction events as [|e events IH]; intros pre q r Ho Hup Hs Hwf Hc Hrt.
  { simpl. rewrite Nat.add_0_r, <- Hc. by rewrite set_last_id_same. }
  apply Forall_cons in Hrt as [He Hrt].
  assert (Hp : pending (FakeRedis.stream r (_stream_key q)) (_last_id q)
               = (S (length pre), entry_fields e)
                 :: entries_from (S (length pre)) events).
  { rewrite Hc, pending_wf by done. rewrite Hs.
    by rewrite drop_app_length. }
  cbn [length dequeue_many].
  rewrite (dequeue_event_step _ _ _ _ _ _ Ho Hup Hp).
  rewrite round_trips_classify by done.
  rewrite (IH (pre ++ [(S (length pre), entry_fields e)])); try done.
  - simpl. do 3 f_equal. rewrite length_app. simpl. f_equal. lia.
  - cbn [_stream_key set_last_id]. rewrite Hs.
    rewrite <- app_assoc. simpl. do 3 f_equal.
    rewrite length_app. simpl. lia.
  - simpl. f_equal. rewrite length_app. simpl. lia.
Qed.

End Fifo.

(** C1. On a fresh handle (open, cursor at ['0-0']) over a stream that has
    no entry yet, after any sequence of [enqueue_event] calls of events that
    round-trip through their model, the same number of
    [dequeue_event(no_wait=True)] calls returns the events in append order,
    one per call, and the call after them raises [QueueEmpty], the handle
    staying open. *)
Theorem dequeue_returns_events_in_append_order `{Runtime}
    (q : RedisEventQueue.t) (r0 : Redis) (events : list Event) :
  RedisEventQueue._is_closed q = false →
  RedisEventQueue._last_id q = Id 0 →
  down r0 = false →
  FakeRedis.stream r0 (RedisEventQueue._stream_key q) = [] →
  Forall round_trips events →
  ∃ q',
    dequeue_many (length events) q (enqueue_all q r0 events)
    = Some (map (λ e, Return (Parsed e)) events, q')
    ∧ RedisEventQueue.dequeue_event q' (enqueue_all q r0 events) true
      = Some (Raise (QueueEmpty ""), q', [])
    ∧ RedisEventQueue.is_closed q' = false.
Proof.
  intros Ho Hc Hup Hfresh Hrt.
  destruct (enqueue_all_up q r0 events Ho Hup) as (Hup' & _ & Hs & _).
  rewrite Hfresh in Hs. simpl in Hs.
  assert (Hwf : wf_stream (FakeRedis.stream (enqueue_all q r0 events)
                             (RedisEventQueue._stream_key q))).
  { rewrite Hs. apply (wf_entries_from [] events), wf_stream_nil. }
  eexists. split; [|split].
  - by apply (dequeue_many_entries events []).
  - apply dequeue_event_empty; [done..|].
    cbn [RedisEventQueue._stream_key RedisEventQueue._last_id
         RedisEventQueue.set_last_id].
    rewrite pending_wf by done. apply drop_ge.
    rewrite Hs. clear. simpl. generalize 0%nat.
    induction events as [|e events IH]; intros n; simpl; [lia|].
    specialize (IH (S n)). lia.
  - done.
Qed.

Lemma dequeue_returns_events_in_append_order_witness :
  ∃ q',
    dequeue_many 2 (Sample.queue "t1")
      (enqueue_all (Sample.queue "t1") FakeRedis.__init__
         [Sample.event "Message" "{hello}"; Sample.event "Message" "{world}"])
    = Some ([Return (Parsed (Sample.event "Message" "{hello}"));
             Return (Parsed (Sample.event "Message" "{world}"))], q')
    ∧ RedisEventQueue.dequeue_event q'
        (enqueue_all (Sample.queue "t1") FakeRedis.__init__
           [Sample.event "Message" "{hello}"; Sample.event "Message" "{world}"]) true
      = Some (Raise (QueueEmpty ""), q', [])
    ∧ RedisEventQueue.is_closed q' = false.
Proof.
  apply (dequeue_returns_events_in_append_order (Sample.queue "t1")
           FakeRedis.__init__ [Sample.event "Message" "{hello}"; Sample.event "Message" "{world}"]);
    try reflexivity.
  repeat constructor.
  - exists Message, "{hello}". repeat split; reflexivity.
  - exists Message, "{world}". repeat split; reflexivity.
Defined.

(** C4. An event of a known kind whose [json()] text loads and parses back
    is appended by [enqueue_event] through an open handle and is what a
    [dequeue_event] on a handle of the same stream, whose cursor stood at
    the end of the stream before the append, returns: the model instance
    built from the stored kind and payload, equal to the event. *)
Theorem enqueue_dequeue_round_trip `{Runtime}
    (writer reader : RedisEventQueue.t) (r : Redis) (e : Event) (no_wait : bool) :
  RedisEventQueue._is_closed writer = false →
  RedisEventQueue._is_closed reader = false →
  RedisEventQueue._stream_key reader = RedisEventQueue._stream_key writer →
  down r = false →
  wf_stream (FakeRedis.stream r (RedisEventQueue._stream_key writer)) →
  RedisEventQueue._last_id reader
  = Id (length (FakeRedis.stream r (RedisEventQueue._stream_key writer))) →
  round_trips e →
  (RedisEventQueue.enqueue_event writer r e).1.1 = Return ()
  ∧ RedisEventQueue.dequeue_event reader
      (RedisEventQueue.enqueue_event writer r e).1.2 no_wait
    = Some (Return (Parsed e),
            RedisEventQueue.set_last_id reader
              (Id (S (length (FakeRedis.stream r (RedisEventQueue._stream_key writer))))),
            []).
Proof.
  intros Hw Hr Hkey Hup Hwf Hc Hrt.
  rewrite enqueue_event_up by done. simpl. split; [done|].
  set (lst := FakeRedis.stream r (RedisEventQueue._stream_key writer)) in *.
  set (r' := FakeRedis.with_streams r _).
  assert (Hs : FakeRedis.stream r' (RedisEventQueue._stream_key reader)
               = lst ++ [(S (length lst), entry_fields e)]).
  { rewrite Hkey. apply stream_with_streams_eq. }
  assert (Hp : pending (FakeRedis.stream r' (RedisEventQueue._stream_key reader))
                 (RedisEventQueue._last_id reader)
               = [(S (length lst), entry_fields e)]).
  { rewrite Hc, pending_wf.
    - rewrite Hs. by rewrite drop_app_length.
    - rewrite Hs. by apply wf_stream_snoc. }
  assert (Hup' : down r' = false) by done.
  rewrite (dequeue_event_step _ _ _ _ _ _ Hr Hup' Hp).
  by rewrite round_trips_classify.
Qed.

Lemma enqueue_dequeue_round_trip_witness :
  (RedisEventQueue.enqueue_event (Sample.queue "task1") FakeRedis.__init__
     (Sample.event "TaskStatusUpdateEvent" "{x: 1}")).1.1 = Return ()
  ∧ RedisEventQueue.dequeue_event (Sample.queue "task1")
      (RedisEventQueue.enqueue_event (Sample.queue "task1") FakeRedis.__init__
         (Sample.event "TaskStatusUpdateEvent" "{x: 1}")).1.2 true
    = Some (Return (Parsed (Sample.event "TaskStatusUpdateEvent" "{x: 1}")),
            RedisEventQueue.set_last_id (Sample.queue "task1") (Id 1), []).
Proof.
  apply (enqueue_dequeue_round_trip (Sample.queue "task1") (Sample.queue "task1")
           FakeRedis.__init__ (Sample.event "TaskStatusUpdateEvent" "{x: 1}") true);
    try reflexivity.
  - apply wf_stream_nil.
  - exists TaskStatusUpdateEvent, "{x: 1}". repeat split; reflexivity.
Defined.

(** ** Tombstones and the closed state *)

Section Closing.
Context `{Runtime}.
Import RedisEventQueue.

Implicit Types (q : RedisEventQueue.t) (r : Redis).

Lemma classify_tombstone f norm :
  normalize f ∅ = Some norm → norm !! "type" = Some (Str "CLOSE") →
  classify f = Tombstone.
Proof. intros Hn Ht. unfold classify. by rewrite Hn, Ht. Qed.

(** Any iteration of the read loop that reads a tombstone. *)
Lemma dequeue_loop_tombstone fuel q r block logs i f rest norm :
  down r = false →
  pending (FakeRedis.stream r (_stream_key q)) (_last_id q) = (i, f) :: rest →
  normalize f ∅ = Some norm → norm !! "type" = Some (Str "CLOSE") →
  dequeue_loop (S fuel) q r block logs
  = Some (Raise (QueueEmpty "Queue closed"),
          set_is_closed (set_last_id q (Id i)) true, logs).
Proof.
  intros Hup Hp Hn Ht.
  rewrite (dequeue_loop_step _ _ _ _ _ i f rest) by done.
  by rewrite (classify_tombstone f norm).
Qed.

(** [close] on a client that is up appends one tombstone. *)
Lemma close_up q r immediate :
  down r = false →
  close q r immediate
  = (Return (),
     FakeRedis.with_streams r
       (<[_stream_key q :=
            FakeRedis.stream r (_stream_key q)
            ++ [(S (length (FakeRedis.stream r (_stream_key q))), tombstone)]]>
          (streams r)),
     []).
Proof.
  intros Hup. unfold close, FakeRedis.set, FakeRedis.xadd.
  rewrite Hup. simpl. by rewrite Hup.
Qed.

Lemma run_op_keeps_closed op q r q' r' :
  run_op op q r = Some (q', r') → _is_closed q = true → _is_closed q' = true.
Proof.
  intros Hrun Hc. destruct op; simpl in Hrun;
    try (injection Hrun as <- _; exact Hc).
  rewrite dequeue_event_closed in Hrun by done.
  by injection Hrun as <- _.
Qed.

End Closing.

(** C2. A [dequeue_event] on an open handle whose read returns an entry of
    type ['CLOSE'] raises [QueueEmpty], with the handle's closed flag set
    and its cursor on the tombstone; the same holds of any later iteration
    of the read loop. In particular, after [close()] on a stream without
    entries, the first [dequeue_event] of a fresh handle raises
    [QueueEmpty] and [is_closed()] is true afterwards. *)
Theorem tombstone_closes_the_handle `{Runtime} :
  (∀ (q : RedisEventQueue.t) (r : Redis) (no_wait : bool) i f rest norm,
     RedisEventQueue._is_closed q = false →
     down r = false →
     pending (FakeRedis.stream r (RedisEventQueue._stream_key q))
       (RedisEventQueue._last_id q) = (i, f) :: rest →
     RedisEventQueue.normalize f ∅ = Some norm →
     norm !! "type" = Some (Str "CLOSE") →
     ∃ q', RedisEventQueue.dequeue_event q r no_wait
           = Some (Raise (QueueEmpty "Queue closed"), q', [])
           ∧ RedisEventQueue.is_closed q' = true
           ∧ RedisEventQueue._last_id q' = Id i)
  ∧ (∀ fuel (q : RedisEventQueue.t) (r : Redis) block logs i f rest norm,
       down r = false →
       pending (FakeRedis.stream r (RedisEventQueue._stream_key q))
         (RedisEventQueue._last_id q) = (i, f) :: rest →
       RedisEventQueue.normalize f ∅ = Some norm →
       norm !! "type" = Some (Str "CLOSE") →
       ∃ q', RedisEventQueue.dequeue_loop (S fuel) q r block logs
             = Some (Raise (QueueEmpty "Queue closed"), q', logs)
             ∧ RedisEventQueue.is_closed q' = true)
  ∧ (∀ (q : RedisEventQueue.t) (r : Redis) (immediate no_wait : bool),
       RedisEventQueue._is_closed q = false →
       RedisEventQueue._last_id q = Id 0 →
       down r = false →
       FakeRedis.stream r (RedisEventQueue._stream_key q) = [] →
       (RedisEventQueue.close q r immediate).1.1 = Return ()
       ∧ ∃ q', RedisEventQueue.dequeue_event q
                 (RedisEventQueue.close q r immediate).1.2 no_wait
               = Some (Raise (QueueEmpty "Queue closed"), q', [])
               ∧ RedisEventQueue.is_closed q' = true).
Proof.
  split; [|split].
  - intros q r no_wait i f rest norm Ho Hup Hp Hn Ht.
    eexists. split; [|split].
    + rewrite (dequeue_event_step _ _ _ _ _ _ Ho Hup Hp).
      by rewrite (classify_tombstone f norm).
    + reflexivity.
    + reflexivity.
  - intros fuel q r block logs i f rest norm Hup Hp Hn Ht.
    eexists. split.
    + by apply (dequeue_loop_tombstone _ _ _ _ _ i f rest norm).
    + reflexivity.
  - intros q r immediate no_wait Ho Hc Hup Hfresh.
    rewrite close_up by done. simpl. split; [done|].
    rewrite Hfresh. simpl.
    set (r' := FakeRedis.with_streams r _).
    assert (Hup' : down r' = false) by done.
    assert (Hp : pending (FakeRedis.stream r' (RedisEventQueue._stream_key q))
                   (RedisEventQueue._last_id q) = [(1%nat, tombstone)]).
    { unfold r'. rewrite stream_with_streams_eq, Hc. reflexivity. }
    eexists. split.
    + rewrite (dequeue_event_step _ _ _ _ _ _ Ho Hup' Hp). reflexivity.
    + reflexivity.
Qed.

Lemma tombstone_closes_the_handle_witness :
  (RedisEventQueue.close (Sample.queue "t2") FakeRedis.__init__ false).1.1 = Return ()
  ∧ ∃ q', RedisEventQueue.dequeue_event (Sample.queue "t2")
            (RedisEventQueue.close (Sample.queue "t2") FakeRedis.__init__ false).1.2
            true
          = Some (Raise (QueueEmpty "Queue closed"), q', [])
          ∧ RedisEventQueue.is_closed q' = true.
Proof.
  destruct (tombstone_closes_the_handle (H := Sample.runtime)) as (_ & _ & Hscenario).
  apply Hscenario; reflexivity.
Defined.

(** C5. The closed state of a handle is terminal: a [dequeue_event] on a
    closed handle raises [QueueEmpty] at once, whatever the redis client
    holds and even when it is down, leaving the handle as it was; no
    sequence of operations on a closed handle opens it again; and
    [enqueue_event] and [close], the operations that append, leave the
    handle, its closed flag included, unchanged. *)
Theorem closed_is_terminal `{Runtime} :
  (∀ (q : RedisEventQueue.t) (r : Redis) (no_wait : bool),
     RedisEventQueue.is_closed q = true →
     RedisEventQueue.dequeue_event q r no_wait
     = Some (Raise (QueueEmpty "Queue is closed"), q, []))
  ∧ (∀ q q' : RedisEventQueue.t,
       rtc handle_step q q' →
       RedisEventQueue.is_closed q = true →
       RedisEventQueue.is_closed q' = true)
  ∧ (∀ (q q' : RedisEventQueue.t) (r r' : Redis) (op : Op),
       (∃ e, op = OpEnqueue e) ∨ (∃ immediate, op = OpClose immediate) →
       run_op op q r = Some (q', r') →
       q' = q).
Proof.
  split; [|split].
  - intros q r no_wait Hc. by apply dequeue_event_closed.
  - intros q q' Hsteps. induction Hsteps as [q|q q1 q2 Hstep _ IH]; [done|].
    intros Hc. apply IH. destruct Hstep as (op & r & r' & Hrun).
    by eapply run_op_keeps_closed.
  - intros q q' r r' op [[e ->]|[imm ->]] Hrun; simpl in Hrun;
      by injection Hrun as <- _.
Qed.

Lemma closed_is_terminal_witness :
  RedisEventQueue.dequeue_event
    (RedisEventQueue.set_is_closed (Sample.queue "t3") true)
    (mkRedis ∅ DictAttr true) false
  = Some (Raise (QueueEmpty "Queue is closed"),
          RedisEventQueue.set_is_closed (Sample.queue "t3") true, []).
Proof.
  destruct (closed_is_terminal (H := Sample.runtime)) as (Hraise & _ & _).
  apply Hraise. reflexivity.
Defined.

(** ** Storage errors on append *)

(** An append that raises [RedisError] inside [enqueue_event]: the call
    returns normally. *)
Lemma enqueue_event_swallows_append_error :
  (FakeRedis.xadd (mkRedis ∅ DictAttr true)
     (RedisEventQueue._stream_key (Sample.queue "t1"))
     (entry_fields (Sample.event "Message" "{hello}"))
     (RedisEventQueue.maxlen_kwarg (Sample.queue "t1"))).1
  = Raise RedisError
  ∧ (RedisEventQueue.enqueue_event (Sample.queue "t1") (mkRedis ∅ DictAttr true)
       (Sample.event "Message" "{hello}")).1.1
    = Return ()
  ∧ (RedisEventQueue.enqueue_event (Sample.queue "t1") (mkRedis ∅ DictAttr true)
       (Sample.event "Message" "{hello}")).1.1
    ≠ Raise RedisError.
Proof. split; [reflexivity|]. split; [reflexivity|discriminate]. Qed.

(** C7, as the code has it. When the append raises [RedisError],
    [enqueue_event] on an open handle logs the exception at level ERROR and
    returns normally: the error is not re-raised, and the client is left as
    it was. *)
Theorem enqueue_event_logs_append_error `{Runtime}
    (q : RedisEventQueue.t) (r : Redis) (e : Event) :
  RedisEventQueue._is_closed q = false →
  (FakeRedis.xadd r (RedisEventQueue._stream_key q) (entry_fields e)
     (RedisEventQueue.maxlen_kwarg q)).1 = Raise RedisError →
  RedisEventQueue.enqueue_event q r e
  = (Return (), r, [mkLog ERROR "Failed to XADD event to redis stream"]).
Proof.
  intros Ho Hfail. unfold RedisEventQueue.enqueue_event. rewrite Ho.
  fold (entry_fields e).
  unfold FakeRedis.xadd in *. destruct (down r); [done|discriminate Hfail].
Qed.

Lemma enqueue_event_logs_append_error_witness :
  RedisEventQueue.enqueue_event (Sample.queue "t1") (mkRedis ∅ DictAttr true)
    (Sample.event "Message" "{hello}")
  = (Return (), mkRedis ∅ DictAttr true,
     [mkLog ERROR "Failed to XADD event to redis stream"]).
Proof.
  apply (enqueue_event_logs_append_error (Sample.queue "t1")
           (mkRedis ∅ DictAttr true) (Sample.event "Message" "{hello}"));
    reflexivity.
Defined.

(** ** Entries that do not deserialize *)

(** Two streams whose first entry does not deserialize into a known kind,
    followed by a well-formed message: the tag ["Bogus"] is not in
    [_TYPE_MAP]; the model rejects the payload [{}]. In both the call
    returns the data of the first entry and leaves the cursor on it. *)
Lemma dequeue_event_returns_undeserializable_entry :
  _TYPE_MAP "Bogus" = None
  ∧ RedisEventQueue.dequeue_event (Sample.queue "t1")
      (enqueue_all (Sample.queue "t1") FakeRedis.__init__
         [Sample.event "Bogus" "{x}"; Sample.event "Message" "{ok}"]) true
    = Some (Return (Unparsed (PData "{x}")),
            RedisEventQueue.set_last_id (Sample.queue "t1") (Id 1), [])
  ∧ parse_obj Message (PData "{}") = None
  ∧ RedisEventQueue.dequeue_event (Sample.queue "t1")
      (enqueue_all (Sample.queue "t1") FakeRedis.__init__
         [Sample.event "Message" "{}"; Sample.event "Message" "{ok}"]) true
    = Some (Return (Unparsed (PData "{}")),
            RedisEventQueue.set_last_id (Sample.queue "t1") (Id 1),
            [mkLog ERROR "Failed to parse event payload into model"]).
Proof. repeat split; reflexivity. Qed.

(** C8, as the code has it. Of the entry a [dequeue_event] on an open
    handle reads first:
    - when a field name does not decode, or when it is not a tombstone and
      has no ['payload'] field, the entry is logged at level DEBUG and
      skipped, and the call goes on as a call with the cursor on that
      entry, that is with the next entry;
    - when its type tag is not a key of [_TYPE_MAP], its decoded payload is
      returned to the caller;
    - when the model rejects its payload, the exception is logged at level
      ERROR and the decoded payload is returned to the caller. *)
Theorem dequeue_event_on_undeserializable_entry `{Runtime}
    (q : RedisEventQueue.t) (r : Redis) (no_wait : bool) i f rest :
  RedisEventQueue._is_closed q = false →
  down r = false →
  pending (FakeRedis.stream r (RedisEventQueue._stream_key q))
    (RedisEventQueue._last_id q) = (i, f) :: rest →
  (RedisEventQueue.normalize f ∅ = None
   ∨ (∃ norm, RedisEventQueue.normalize f ∅ = Some norm
              ∧ norm !! "type" ≠ Some (Str "CLOSE")
              ∧ norm !! "payload" = None) →
   ∃ l, level l = DEBUG
        ∧ RedisEventQueue.dequeue_event q r no_wait
          = with_logs [l]
              (RedisEventQueue.dequeue_event
                 (RedisEventQueue.set_last_id q (Id i)) r no_wait))
  ∧ (∀ norm raw,
       RedisEventQueue.normalize f ∅ = Some norm →
       norm !! "type" ≠ Some (Str "CLOSE") →
       norm !! "payload" = Some raw →
       RedisEventQueue.model_of (norm !! "type") = None →
       RedisEventQueue.dequeue_event q r no_wait
       = Some (Return (Unparsed (RedisEventQueue.load_payload raw)),
               RedisEventQueue.set_last_id q (Id i), []))
  ∧ (∀ norm raw m,
       RedisEventQueue.normalize f ∅ = Some norm →
       norm !! "type" ≠ Some (Str "CLOSE") →
       norm !! "payload" = Some raw →
       RedisEventQueue.model_of (norm !! "type") = Some m →
       parse_obj m (RedisEventQueue.load_payload raw) = None →
       RedisEventQueue.dequeue_event q r no_wait
       = Some (Return (Unparsed (RedisEventQueue.load_payload raw)),
               RedisEventQueue.set_last_id q (Id i),
               [mkLog ERROR "Failed to parse event payload into model"])).
Proof.
  intros Ho Hup Hp.
  rewrite (dequeue_event_step _ _ _ _ _ _ Ho Hup Hp).
  assert (Hnc : ∀ norm : gmap string rstr, norm !! "type" ≠ Some (Str "CLOSE") →
                        RedisEventQueue.is_close_tag (norm !! "type") = false).
  { intros norm Hne. unfold RedisEventQueue.is_close_tag.
    by apply bool_decide_eq_false_2. }
  split; [|split].
  - intros [Hn|(norm & Hn & Ht & Hpl)]; unfold classify; rewrite Hn.
    + eexists. split; [|reflexivity]. reflexivity.
    + rewrite Hnc, Hpl by done. eexists. split; [|reflexivity]. reflexivity.
  - intros norm raw Hn Ht Hpl Hm. unfold classify.
    by rewrite Hn, Hnc, Hpl, Hm.
  - intros norm raw m Hn Ht Hpl Hm Hv. unfold classify.
    by rewrite Hn, Hnc, Hpl, Hm, Hv.
Qed.

Lemma dequeue_event_on_undeserializable_entry_witness :
  ∃ l, level l = DEBUG
       ∧ RedisEventQueue.dequeue_event (Sample.queue "t1")
           (mkRedis {[ "a2a:test:t1" := [(1%nat, [(Str "type", Str "Message")]);
                                         (2%nat, [(Str "type", Str "Message");
                                                  (Str "payload", Str "{ok}")])] ]}
              DictAttr false) true
         = with_logs [l]
             (RedisEventQueue.dequeue_event
                (RedisEventQueue.set_last_id (Sample.queue "t1") (Id 1))
                (mkRedis {[ "a2a:test:t1" := [(1%nat, [(Str "type", Str "Message")]);
                                              (2%nat, [(Str "type", Str "Message");
                                                       (Str "payload", Str "{ok}")])] ]}
                   DictAttr false) true).
Proof.
  refine (proj1 (dequeue_event_on_undeserializable_entry (H := Sample.runtime)
                   (Sample.queue "t1") _ true 1%nat [(Str "type", Str "Message")]
                   [(2%nat, [(Str "type", Str "Message"); (Str "payload", Str "{ok}")])]
                   _ _ _) _).
  - reflexivity.
  - reflexivity.
  - reflexivity.
  - right. exists {[ "type" := Str "Message" ]}.
    split; [reflexivity|]. split; [|reflexivity].
    intros Heq. vm_compute in Heq. discriminate Heq.
Defined.

(** ** The consumer loop on a closed stream *)

Section ConsumeAll.
Context `{Runtime}.
Import RedisEventConsumer.

(** Once the handle is closed, every [dequeue_event] raises [QueueEmpty],
    which the loop answers with [continue]: no amount of iterations
    reaches a [yield] or the end of the generator, whatever the stream
    receives meanwhile. *)
Lemma consume_loop_closed_spins fuel : ∀ (q : RedisEventQueue.t) env i,
  RedisEventQueue._is_closed q = true →
  consume_loop fuel q env i = None.
Proof.
  induction fuel as [|fuel IH]; intros q env i Hc; [done|].
  simpl. rewrite dequeue_event_closed by done. by apply IH.
Qed.

(** The same from an open handle whose next read is a tombstone. *)
Lemma consume_loop_tombstone_spins fuel (q : RedisEventQueue.t) env i n f rest :
  RedisEventQueue._is_closed q = false →
  down (env i) = false →
  pending (FakeRedis.stream (env i) (RedisEventQueue._stream_key q))
    (RedisEventQueue._last_id q) = (n, f) :: rest →
  classify f = Tombstone →
  consume_loop fuel q env i = None.
Proof.
  intros Ho Hup Hp Hf. destruct fuel as [|fuel]; [done|].
  simpl. rewrite (dequeue_event_step _ _ _ _ _ _ Ho Hup Hp), Hf.
  by apply consume_loop_closed_spins.
Qed.

End ConsumeAll.

(** C6, at the stream [A, CLOSE] read by a fresh handle. The first
    resumption of [consume_all] yields [A] and leaves the handle open; the
    next one reads the tombstone, which closes the handle and raises
    [QueueEmpty]; the loop then retries for ever: for no number of
    iterations does the resumption end the generator or yield, whatever is
    appended to the stream meanwhile. *)
Theorem consume_all_never_ends_after_close :
  let q := Sample.queue "t1" in
  let r := (RedisEventQueue.close q
              (enqueue_all q FakeRedis.__init__ [Sample.event "Message" "{A}"])
              false).1.2 in
  FakeRedis.stream r "a2a:test:t1"
  = [(1%nat, entry_fields (Sample.event "Message" "{A}")); (2%nat, tombstone)]
  ∧ RedisEventConsumer.anext 1 RedisEventConsumer.LoopHead q (λ _, r)
    = Some (RedisEventConsumer.Yield (Parsed (Sample.event "Message" "{A}")),
            RedisEventConsumer.AtYield,
            RedisEventQueue.set_last_id q (Id 1))
  ∧ ∀ (fuel : nat) (later : nat → Redis),
      RedisEventConsumer.anext fuel RedisEventConsumer.AtYield
        (RedisEventQueue.set_last_id q (Id 1))
        (λ i, match i with O => r | S j => later j end)
      = None.
Proof.
  intros q r. split; [reflexivity|]. split; [reflexivity|].
  intros fuel later. unfold RedisEventConsumer.anext. simpl.
  by apply (consume_loop_tombstone_spins fuel _ _ O 2%nat tombstone []).
Qed.

(** ** Taps *)

Lemma has_colon_app p t : has_colon (p +:+ String ":" t) = true.
Proof.
  induction p as [|c p IH].
  - reflexivity.
  - change (has_colon (String c (p +:+ String ":" t)) = true).
    cbn [has_colon]. rewrite IH. apply orb_true_r.
Qed.

(** [rsplit] gives the prefix back when the task id has no colon. *)
Lemma rsplit_head_prefix p t :
  has_colon t = false → rsplit_head (p +:+ ":" +:+ t) = p.
Proof.
  intros Ht. change (rsplit_head (p +:+ String ":" t) = p).
  induction p as [|c p IH].
  - change (rsplit_head (String ":" t) = ""). cbn [rsplit_head].
    by rewrite Ht.
  - change (rsplit_head (String c (p +:+ String ":" t)) = String c p).
    cbn [rsplit_head]. rewrite has_colon_app, IH. simpl.
    by rewrite andb_false_r.
Qed.

(** What [tap] copies into the new handle, the cursor apart. *)
Lemma tap_fields q r :
  RedisEventQueue.set_last_id (RedisEventQueue.tap q r) (Id 0)
  = RedisEventQueue.__init__ (RedisEventQueue._task_id q)
      (rsplit_head (RedisEventQueue._stream_key q))
      (RedisEventQueue._maxlen q) (RedisEventQueue._read_block_ms q).
Proof.
  unfold RedisEventQueue.tap.
  destruct (streams_attr r); [done| |done].
  by destruct (FakeRedis.stream r (RedisEventQueue._stream_key q)).
Qed.

Lemma tap_is_open q r : RedisEventQueue._is_closed (RedisEventQueue.tap q r) = false.
Proof.
  change (RedisEventQueue._is_closed
            (RedisEventQueue.set_last_id (RedisEventQueue.tap q r) (Id 0)) = false).
  by rewrite tap_fields.
Qed.

(** For a handle built by the constructor on a task id without colon, the
    tap is on the same stream, whatever was done with the handle since. *)
Lemma tap_stream_key q r stream_prefix :
  RedisEventQueue._stream_key q = stream_prefix +:+ ":" +:+ RedisEventQueue._task_id q →
  has_colon (RedisEventQueue._task_id q) = false →
  RedisEventQueue._stream_key (RedisEventQueue.tap q r) = RedisEventQueue._stream_key q.
Proof.
  intros Hk Ht.
  change (RedisEventQueue._stream_key
            (RedisEventQueue.set_last_id (RedisEventQueue.tap q r) (Id 0))
          = RedisEventQueue._stream_key q).
  rewrite tap_fields. cbn [RedisEventQueue.__init__ RedisEventQueue._stream_key].
  rewrite Hk at 1. rewrite rsplit_head_prefix by done. by rewrite Hk.
Qed.

(** With a client that shows its [streams] dict, the cursor of a tap is
    the end of the stream at the time of the call. *)
Lemma tap_cursor_at_tail q r :
  streams_attr r = DictAttr →
  wf_stream (FakeRedis.stream r (RedisEventQueue._stream_key q)) →
  RedisEventQueue._last_id (RedisEventQueue.tap q r)
  = Id (length (FakeRedis.stream r (RedisEventQueue._stream_key q))).
Proof.
  intros Ha Hwf. unfold RedisEventQueue.tap. rewrite Ha.
  destruct (FakeRedis.stream r _) as [|e lst] eqn:Hs; [done|].
  cbn [RedisEventQueue._last_id RedisEventQueue.set_last_id]. f_equal.
  unfold RedisEventQueue.last_entry_id.
  destruct (last (e :: lst)) as [x|] eqn:Hl.
  - rewrite last_lookup in Hl. apply Hwf in Hl. rewrite Hl. simpl. lia.
  - by rewrite last_None in Hl.
Qed.

(** With a client without a [streams] attribute the cursor of a tap is
    ['0-0'], the beginning of the stream. *)
Lemma tap_cursor_without_attr q r :
  streams_attr r = NoAttr →
  RedisEventQueue._last_id (RedisEventQueue.tap q r) = Id 0.
Proof. intros Ha. unfold RedisEventQueue.tap. by rewrite Ha. Qed.

(** C3, with a client of the [redis.asyncio] kind, which has no [streams]
    attribute: event [A] is appended, [tap()] is called, event [B] is
    appended; the cursor of the tap is ['0-0'] and its first
    [dequeue_event] returns [A]. *)
Theorem tap_replays_history_without_streams_attr :
  let q1 := Sample.queue "task4" in
  let rA := enqueue_all q1 Sample.aioredis [Sample.event "Message" "{A}"] in
  let q2 := RedisEventQueue.tap q1 rA in
  let rB := enqueue_all q1 rA [Sample.event "Message" "{B}"] in
  FakeRedis.stream rB "a2a:test:task4"
  = [(1%nat, entry_fields (Sample.event "Message" "{A}"));
     (2%nat, entry_fields (Sample.event "Message" "{B}"))]
  ∧ RedisEventQueue._stream_key q2 = "a2a:test:task4"
  ∧ RedisEventQueue._last_id q2 = Id 0
  ∧ RedisEventQueue.dequeue_event q2 rB true
    = Some (Return (Parsed (Sample.event "Message" "{A}")),
            RedisEventQueue.set_last_id q2 (Id 1), []).
Proof. repeat split; reflexivity. Qed.

(** The same calls with the [FakeRedis] of the tests: the tap returns [B]. *)
Lemma tap_sees_later_event_with_fake_redis :
  let q1 := Sample.queue "task4" in
  let rA := enqueue_all q1 FakeRedis.__init__ [Sample.event "Message" "{A}"] in
  let q2 := RedisEventQueue.tap q1 rA in
  let rB := enqueue_all q1 rA [Sample.event "Message" "{B}"] in
  RedisEventQueue.dequeue_event q2 rB true
  = Some (Return (Parsed (Sample.event "Message" "{B}")),
          RedisEventQueue.set_last_id q2 (Id 2), []).
Proof. reflexivity. Qed.

(** A task id with a colon, with the [FakeRedis] of the tests: the tap of
    the queue of task ["a:b"] reads the stream of task ["a:a:b"], from the
    identifier that was last on the stream of ["a:b"]. *)
Lemma tap_of_colon_task_reads_other_stream :
  let q1 := Sample.queue "a:b" in
  let other := Sample.queue "a:a:b" in
  let r0 := enqueue_all q1 FakeRedis.__init__ [Sample.event "Message" "{A}"] in
  let q2 := RedisEventQueue.tap q1 r0 in
  let r1 := enqueue_all other r0
              [Sample.event "Message" "{X}"; Sample.event "Message" "{Y}"] in
  let r2 := enqueue_all q1 r1 [Sample.event "Message" "{B}"] in
  RedisEventQueue._stream_key q2 = RedisEventQueue._stream_key other
  ∧ RedisEventQueue.dequeue_event q2 r2 true
    = Some (Return (Parsed (Sample.event "Message" "{Y}")),
            RedisEventQueue.set_last_id q2 (Id 2), []).
Proof. split; reflexivity. Qed.

(** C10, at a task id with a colon: the handle of task ["a:b"] under the
    prefix ["a2a:test"] is on the stream ["a2a:test:a:b"], its tap on the
    stream ["a2a:test:a:a:b"]. *)
Theorem tap_of_colon_task_changes_stream_key :
  RedisEventQueue._stream_key (Sample.queue "a:b") = "a2a:test:a:b"
  ∧ RedisEventQueue._stream_key
      (RedisEventQueue.tap (Sample.queue "a:b") FakeRedis.__init__)
    = "a2a:test:a:a:b"
  ∧ RedisEventQueue._stream_key
      (RedisEventQueue.tap (Sample.queue "a:b") FakeRedis.__init__)
    ≠ RedisEventQueue._stream_key (Sample.queue "a:b").
Proof. split; [reflexivity|]. split; [reflexivity|discriminate]. Qed.

(** Where the code does what C3 says: with a client that shows its
    [streams] dict and a task id without colon, the first [dequeue_event]
    of a tap returns the first event appended after the [tap()] call,
    whatever the stream held before. *)
Lemma tap_returns_first_later_event `{Runtime}
    (q writer : RedisEventQueue.t) (r : Redis) stream_prefix
    (e : Event) (events : list Event) (no_wait : bool) :
  RedisEventQueue._stream_key q
  = stream_prefix +:+ ":" +:+ RedisEventQueue._task_id q →
  has_colon (RedisEventQueue._task_id q) = false →
  RedisEventQueue._stream_key writer = RedisEventQueue._stream_key q →
  RedisEventQueue._is_closed writer = false →
  streams_attr r = DictAttr →
  down r = false →
  wf_stream (FakeRedis.stream r (RedisEventQueue._stream_key q)) →
  round_trips e →
  ∃ q', RedisEventQueue.dequeue_event (RedisEventQueue.tap q r)
          (enqueue_all writer r (e :: events)) no_wait
        = Some (Return (Parsed e), q', []).
Proof.
  intros Hk Ht Hw Ho Ha Hup Hwf Hrt.
  set (tp := RedisEventQueue.tap q r).
  set (lst := FakeRedis.stream r (RedisEventQueue._stream_key q)) in *.
  destruct (enqueue_all_up writer r (e :: events) Ho Hup) as (Hup' & _ & Hs & _).
  rewrite Hw in Hs. fold lst in Hs.
  assert (Hkey : RedisEventQueue._stream_key tp = RedisEventQueue._stream_key q)
    by (by apply (tap_stream_key q r stream_prefix)).
  assert (Hp : pending (FakeRedis.stream (enqueue_all writer r (e :: events))
                          (RedisEventQueue._stream_key tp))
                 (RedisEventQueue._last_id tp)
               = (S (length lst), entry_fields e)
                 :: entries_from (S (length lst)) events).
  { rewrite Hkey. unfold tp. rewrite tap_cursor_at_tail by done. fold lst.
    rewrite pending_wf.
    - rewrite Hs. by rewrite drop_app_length.
    - rewrite Hs. by apply wf_entries_from. }
  eexists.
  rewrite (dequeue_event_step _ _ _ _ _ _ (tap_is_open q r) Hup' Hp).
  by rewrite round_trips_classify.
Qed.

(** ** The queue manager *)

Section Manager.
Import RedisQueueManager.

Implicit Types (self : RedisQueueManager.t) (h : gmap nat RedisEventQueue.t)
  (r : Redis) (task_id : string).

Lemma alloc_fresh h q : h !! (alloc h q).1 = None.
Proof. unfold alloc. simpl. apply not_elem_of_dom, is_fresh. Qed.

Lemma heap_ok_alloc self h q : heap_ok self h → heap_ok self (alloc h q).2.
Proof.
  intros Hok task_id l Hl. unfold alloc. simpl.
  destruct (decide (fresh (dom h) = l)) as [->|Hne].
  - rewrite lookup_insert_eq. eauto.
  - rewrite lookup_insert_ne by done. by eapply Hok.
Qed.

(** An unregistered task: a queue is built, stored at a new reference,
    registered and returned. *)
Lemma create_or_tap_unregistered self h r task_id :
  _task_queue self !! task_id = None →
  create_or_tap self h r task_id
  = Some (fresh (dom h),
          set_task_queue self (<[task_id := fresh (dom h)]> (_task_queue self)),
          <[fresh (dom h) :=
              RedisEventQueue.__init__ task_id (_stream_prefix self) None
                RedisEventQueue.default_read_block_ms]> h).
Proof. intros Hnone. unfold create_or_tap. by rewrite Hnone. Qed.

(** A registered task: a tap of the registered queue is stored at a new
    reference and returned; the manager is left as it was. *)
Lemma create_or_tap_registered self h r task_id l q :
  _task_queue self !! task_id = Some l →
  h !! l = Some q →
  create_or_tap self h r task_id
  = Some (fresh (dom h), self, <[fresh (dom h) := RedisEventQueue.tap q r]> h).
Proof. intros Hl Hq. unfold create_or_tap. by rewrite Hl, Hq. Qed.

(** [create_or_tap] always returns, and keeps the registry pointing into
    the heap. *)
Lemma create_or_tap_total self h r task_id :
  heap_ok self h →
  ∃ l self' h',
    create_or_tap self h r task_id = Some (l, self', h')
    ∧ heap_ok self' h'
    ∧ _task_queue self' !! task_id = Some (default l (_task_queue self !! task_id)).
Proof.
  intros Hok. destruct (_task_queue self !! task_id) as [c|] eqn:Hc.
  - destruct (Hok task_id c Hc) as [q Hq].
    rewrite (create_or_tap_registered _ _ _ _ c q) by done.
    eexists _, _, _. split; [done|]. split; [|done].
    apply (heap_ok_alloc self h (RedisEventQueue.tap q r) Hok).
  - rewrite create_or_tap_unregistered by done.
    eexists _, _, _. split; [done|]. split.
    + intros t l. simpl. destruct (decide (task_id = t)) as [->|Hne].
      * rewrite lookup_insert_eq. intros [= <-]. rewrite lookup_insert_eq. eauto.
      * rewrite lookup_insert_ne by done. intros Hl.
        destruct (Hok t l Hl) as [q Hq].
        destruct (decide (fresh (dom h) = l)) as [->|Hne'].
        -- rewrite lookup_insert_eq. eauto.
        -- rewrite lookup_insert_ne by done. eauto.
    + simpl. apply lookup_insert_eq.
Qed.

(** Registering a task id twice raises [TaskQueueExists]. *)
Lemma add_twice_raises self task_id queue queue' :
  _task_queue self !! task_id = None →
  ∃ self', add self task_id queue = (Return (), self')
           ∧ add self' task_id queue' = (Raise TaskQueueExists, self').
Proof.
  intros Hnone. unfold add at 1. rewrite Hnone. eexists. split; [done|].
  unfold add. simpl. by rewrite lookup_insert_eq.
Qed.

(** Closing a task id that is not registered raises [NoTaskQueue]. *)
Lemma close_unregistered_raises self h r task_id :
  _task_queue self !! task_id = None →
  close self h r task_id = Some (Raise NoTaskQueue, self, r, []).
Proof. intros Hnone. unfold close. by rewrite Hnone. Qed.

(** Calls for a task that is registered: each returns a new tap of the
    canonical queue; the registry and the canonical queue stay. *)
Lemma create_or_tap_many_registered n : ∀ self h r task_id c q,
  _task_queue self !! task_id = Some c →
  h !! c = Some q →
  ∃ ls h',
    create_or_tap_many n self h r task_id = Some (ls, self, h')
    ∧ length ls = n
    ∧ h' !! c = Some q
    ∧ Forall (λ l, l ≠ c ∧ h' !! l = Some (RedisEventQueue.tap q r)) ls
    ∧ (∀ l, is_Some (h !! l) → h' !! l = h !! l).
Proof.
  induction n as [|n IH]; intros self h r task_id c q Hc Hq.
  { exists [], h. simpl. by repeat split. }
  simpl. rewrite (create_or_tap_registered _ _ _ _ c q) by done.
  set (l := fresh (dom h)).
  assert (Hl : h !! l = None) by apply not_elem_of_dom, is_fresh.
  assert (Hne : l ≠ c) by congruence.
  destruct (IH self (<[l := RedisEventQueue.tap q r]> h) r task_id c q)
    as (ls & h' & Hrun & Hlen & Hc' & Hall & Hkeep).
  { done. }
  { by rewrite lookup_insert_ne. }
  rewrite Hrun. exists (l :: ls), h'.
  split; [done|]. split; [by rewrite <- Hlen|]. split; [done|]. split.
  - constructor; [|done]. split; [done|].
    rewrite Hkeep; rewrite lookup_insert_eq; eauto.
  - intros l' Hsome. rewrite Hkeep.
    + apply lookup_insert_ne. intros <-. rewrite Hl in Hsome.
      by destruct Hsome.
    + rewrite lookup_insert_ne; [done|]. intros <-. rewrite Hl in Hsome.
      by destruct Hsome.
Qed.

End Manager.

(** C9. For a task id that is not registered, [create_or_tap] builds a
    queue on the stream of the task, registers it under the task id and
    returns it. On a registered task id it returns a new tap of the
    registered queue and leaves the registry as it is. So any number of
    calls for an unregistered task id registers exactly one canonical
    queue, returned by the first call; every later call returns a tap of
    it, held at another reference, and the registry differs from the
    initial one by that one entry only. *)
Theorem create_or_tap_registers_once :
  (∀ (self : RedisQueueManager.t) (h : gmap nat RedisEventQueue.t) (r : Redis)
     (task_id : string),
     RedisQueueManager._task_queue self !! task_id = None →
     ∃ c, h !! c = None
          ∧ RedisQueueManager.create_or_tap self h r task_id
            = Some (c,
                    RedisQueueManager.set_task_queue self
                      (<[task_id := c]> (RedisQueueManager._task_queue self)),
                    <[c := RedisEventQueue.__init__ task_id
                             (RedisQueueManager._stream_prefix self) None
                             RedisEventQueue.default_read_block_ms]> h))
  ∧ (∀ (self : RedisQueueManager.t) (h : gmap nat RedisEventQueue.t) (r : Redis)
       (task_id : string) c q,
       RedisQueueManager._task_queue self !! task_id = Some c →
       h !! c = Some q →
       ∃ l, h !! l = None
            ∧ RedisQueueManager.create_or_tap self h r task_id
              = Some (l, self, <[l := RedisEventQueue.tap q r]> h))
  ∧ (∀ (n : nat) (self : RedisQueueManager.t) (h : gmap nat RedisEventQueue.t)
       (r : Redis) (task_id : string),
       RedisQueueManager._task_queue self !! task_id = None →
       ∃ c taps self' h',
         RedisQueueManager.create_or_tap_many (S n) self h r task_id
         = Some (c :: taps, self', h')
         ∧ length taps = n
         ∧ RedisQueueManager._task_queue self'
           = <[task_id := c]> (RedisQueueManager._task_queue self)
         ∧ h !! c = None
         ∧ h' !! c = Some (RedisEventQueue.__init__ task_id
                             (RedisQueueManager._stream_prefix self) None
                             RedisEventQueue.default_read_block_ms)
         ∧ Forall (λ l, l ≠ c
                        ∧ h' !! l
                          = Some (RedisEventQueue.tap
                                    (RedisEventQueue.__init__ task_id
                                       (RedisQueueManager._stream_prefix self) None
                                       RedisEventQueue.default_read_block_ms) r))
             taps).
Proof.
  split; [|split].
  - intros self h r task_id Hnone. exists (fresh (dom h)). split.
    + apply not_elem_of_dom, is_fresh.
    + by apply create_or_tap_unregistered.
  - intros self h r task_id c q Hc Hq. exists (fresh (dom h)). split.
    + apply not_elem_of_dom, is_fresh.
    + by apply (create_or_tap_registered _ _ _ _ c q).
  - intros n self h r task_id Hnone.
    cbn [RedisQueueManager.create_or_tap_many].
    rewrite create_or_tap_unregistered by done.
    set (c := fresh (dom h)).
    set (q := RedisEventQueue.__init__ _ _ _ _).
    set (self1 := RedisQueueManager.set_task_queue self _).
    destruct (create_or_tap_many_registered n self1 (<[c := q]> h) r task_id c q)
      as (ls & h' & Hrun & Hlen & Hc' & Hall & _).
    { unfold self1. simpl. apply lookup_insert_eq. }
    { apply lookup_insert_eq. }
    rewrite Hrun. exists c, ls, self1, h'.
    split; [done|]. split; [done|]. split; [done|].
    split; [apply not_elem_of_dom, is_fresh|]. by split.
Qed.

Lemma create_or_tap_registers_once_witness :
  ∃ c taps self' h',
    RedisQueueManager.create_or_tap_many 3
      (RedisQueueManager.__init__ "a2a:task") ∅ FakeRedis.__init__ "t1"
    = Some (c :: taps, self', h')
    ∧ length taps = 2%nat
    ∧ RedisQueueManager._task_queue self' = <["t1" := c]> ∅.
Proof.
  destruct create_or_tap_registers_once as (_ & _ & Hmany).
  destruct (Hmany 2%nat (RedisQueueManager.__init__ "a2a:task") ∅
              FakeRedis.__init__ "t1")
    as (c & taps & self' & h' & Hrun & Hlen & Hreg & _).
  { reflexivity. }
  exists c, taps, self', h'. by repeat split.
Defined.

(** * Further properties of the queue *)

(** ** The read loop: termination and what it keeps *)

(** X1. [dequeue_event] always comes back with a value or an exception: the
    read loop ends within one more iteration than there are entries after
    the cursor, and further iterations would change nothing. *)
Theorem read_loop_terminates `{Runtime}
    (q : RedisEventQueue.t) (r : Redis) (no_wait : bool) :
  (∃ res, RedisEventQueue.dequeue_event q r no_wait = Some res)
  ∧ ∀ block logs, ∃ res, ∀ extra : nat,
      RedisEventQueue.dequeue_loop
        (S (length (pending (FakeRedis.stream r (RedisEventQueue._stream_key q))
                      (RedisEventQueue._last_id q))) + extra)
        q r block logs
      = Some res.
Proof.
  split.
  - destruct (dequeue_event_total q r no_wait) as [res Hres]. eauto.
  - intros block logs.
    destruct (dequeue_loop_total
                (S (length (pending (FakeRedis.stream r (RedisEventQueue._stream_key q))
                              (RedisEventQueue._last_id q))))
                q r block logs) as [res Hres]; [lia|].
    exists res. intros extra. eapply dequeue_loop_mono; [exact Hres|lia].
Qed.

Section LoopInvariants.
Context `{Runtime}.
Import RedisEventQueue.

Lemma dequeue_loop_keeps fuel : ∀ (q : RedisEventQueue.t) r block logs o q' logs',
  dequeue_loop fuel q r block logs = Some (o, q', logs') →
  same_static q q'
  ∧ (FakeRedis.last_num (FakeRedis.stream r (_stream_key q)) (_last_id q)
     ≤ FakeRedis.last_num (FakeRedis.stream r (_stream_key q)) (_last_id q'))%nat
  ∧ ((o = Raise (QueueEmpty "Queue closed") ∧ _is_closed q' = true)
     ∨ _is_closed q' = _is_closed q)
  ∧ (∀ v, o = Return v →
       ∃ i f, _last_id q' = Id i
              ∧ (i, f) ∈ FakeRedis.stream r (_stream_key q)
              ∧ (FakeRedis.last_num (FakeRedis.stream r (_stream_key q)) (_last_id q) < i)%nat).
Proof.
  induction fuel as [|fuel IH]; intros q r block logs o q' logs' Hrun; [done|].
  destruct (down r) eqn:Hd.
  { rewrite dequeue_loop_down in Hrun by done. injection Hrun as <- <- <-.
    repeat split; try done. by right. }
  destruct (pending (FakeRedis.stream r (_stream_key q)) (_last_id q))
    as [|[i f] rest] eqn:Hp.
  { rewrite dequeue_loop_empty in Hrun by done. injection Hrun as <- <- <-.
    repeat split; try done. by right. }
  assert (Hin : (i, f) ∈ FakeRedis.stream r (_stream_key q)
                ∧ (FakeRedis.last_num (FakeRedis.stream r (_stream_key q)) (_last_id q)
                   < i)%nat).
  { assert (Hel : (i, f) ∈ pending (FakeRedis.stream r (_stream_key q)) (_last_id q))
      by (rewrite Hp; left).
    unfold pending in Hel. apply list_elem_of_filter in Hel as [Hlt Hel]. done. }
  destruct Hin as [Hel Hlt].
  rewrite (dequeue_loop_step _ _ _ _ _ i f rest) in Hrun by done.
  destruct (classify f) as [l| |ret ls].
  - apply IH in Hrun as (Hs & Hc & Hcl & Hret).
    cbn [_stream_key _last_id set_last_id] in Hc, Hret.
    destruct Hs as (H1 & H2 & H3 & H4).
    split; [done|]. split.
    { simpl in Hc. lia. }
    split; [exact Hcl|].
    intros v Hv. destruct (Hret v Hv) as (j & g & Hj & Hjel & Hjlt).
    exists j, g. split; [done|]. split; [done|]. simpl in Hjlt. lia.
  - injection Hrun as <- <- <-. split; [done|]. split; [simpl; lia|].
    split; [by left|]. intros v Hv. discriminate Hv.
  - injection Hrun as <- <- <-. split; [done|]. split; [simpl; lia|].
    split; [by right|]. intros v _. by exists i, f.
Qed.

End LoopInvariants.

(** X2. A [dequeue_event] that comes back leaves the task id, the stream key,
    [maxlen] and the block time of the handle as they were and never moves
    the cursor backwards; the closed flag changes only when the call raises
    [QueueEmpty('Queue closed')]; and when the call returns a value, the
    handle is as open as before and its cursor is the identifier of an
    entry of the stream that lies after the old cursor. *)
Theorem dequeue_event_keeps_the_handle `{Runtime}
    (q : RedisEventQueue.t) (r : Redis) (no_wait : bool) o q' logs :
  RedisEventQueue.dequeue_event q r no_wait = Some (o, q', logs) →
  same_static q q'
  ∧ (FakeRedis.last_num (FakeRedis.stream r (RedisEventQueue._stream_key q))
       (RedisEventQueue._last_id q)
     ≤ FakeRedis.last_num (FakeRedis.stream r (RedisEventQueue._stream_key q))
         (RedisEventQueue._last_id q'))%nat
  ∧ ((o = Raise (QueueEmpty "Queue closed") ∧ RedisEventQueue._is_closed q' = true)
     ∨ RedisEventQueue._is_closed q' = RedisEventQueue._is_closed q)
  ∧ (∀ v, o = Return v →
       RedisEventQueue._is_closed q' = RedisEventQueue._is_closed q
       ∧ ∃ i f, RedisEventQueue._last_id q' = Id i
                ∧ (i, f) ∈ FakeRedis.stream r (RedisEventQueue._stream_key q)
                ∧ (FakeRedis.last_num
                     (FakeRedis.stream r (RedisEventQueue._stream_key q))
                     (RedisEventQueue._last_id q) < i)%nat).
Proof.
  intros Hrun. unfold RedisEventQueue.dequeue_event in Hrun.
  destruct (RedisEventQueue._is_closed q) eqn:Hc.
  - injection Hrun as <- <- <-.
    split; [done|]. split; [done|]. split; [by right|].
    intros v Hv. discriminate Hv.
  - apply dequeue_loop_keeps in Hrun as (Hs & Hle & Hcl & Hret).
    split; [done|]. split; [done|]. split.
    { destruct Hcl as [?|Hcl]; [by left|right]. by rewrite Hcl. }
    intros v Hv. split; [|exact (Hret v Hv)].
    destruct Hcl as [[Ho _]|Hcl]; [by rewrite Hv in Ho|congruence].
Qed.

Lemma dequeue_event_keeps_the_handle_witness :
  same_static (Sample.queue "t1")
    (RedisEventQueue.set_last_id (Sample.queue "t1") (Id 1))
  ∧ (0 ≤ 1)%nat
  ∧ ((Return (Parsed (Sample.event "Message" "{A}"))
      = Raise (QueueEmpty "Queue closed") ∧ false = true)
     ∨ false = false)
  ∧ (∀ v, Return (Parsed (Sample.event "Message" "{A}")) = Return v →
       false = false
       ∧ ∃ i f, Id 1 = Id i
                ∧ (i, f) ∈ [(1%nat, entry_fields (Sample.event "Message" "{A}"))]
                ∧ (0 < i)%nat).
Proof.
  exact (dequeue_event_keeps_the_handle (Sample.queue "t1")
           (enqueue_all (Sample.queue "t1") FakeRedis.__init__
              [Sample.event "Message" "{A}"])
           true _ _ _ eq_refl).
Defined.

(** ** Draining *)

Section Drain.
Context `{Runtime}.
Import RedisEventQueue.

Implicit Types (q : RedisEventQueue.t) (r : Redis).

Lemma wf_drop_cons (lst : list Entry) n i f rest :
  wf_stream lst → drop n lst = (i, f) :: rest →
  i = S n ∧ drop (S n) lst = rest.
Proof.
  intros Hwf Hd.
  assert (Hl : lst !! n = Some (i, f)).
  { rewrite <- (Nat.add_0_r n), <- lookup_drop, Hd. done. }
  split; [by apply Hwf in Hl|].
  rewrite (drop_S _ _ _ Hl) in Hd. by injection Hd.
Qed.

(** A call that only adds log records to another call counts the same in
    a sequence of calls. *)
Lemma dequeue_many_skip k q q1 r l :
  dequeue_event q r true = with_logs l (dequeue_event q1 r true) →
  dequeue_many (S k) q r = dequeue_many (S k) q1 r.
Proof.
  intros Heq. cbn [dequeue_many]. rewrite Heq.
  by destruct (dequeue_event q1 r true) as [[[o q2] l2]|].
Qed.

Lemma drain_deliveries r (entries : list Entry) : ∀ n q,
  _is_closed q = false → down r = false →
  wf_stream (FakeRedis.stream r (_stream_key q)) →
  _last_id q = Id n →
  drop n (FakeRedis.stream r (_stream_key q)) = entries →
  ∃ q' m,
    dequeue_many (length (deliveries entries)) q r
    = Some (map Return (deliveries entries), q')
    ∧ same_static q q'
    ∧ _is_closed q' = false
    ∧ _last_id q' = Id m
    ∧ deliveries (drop m (FakeRedis.stream r (_stream_key q))) = []
    ∧ has_tombstone (drop m (FakeRedis.stream r (_stream_key q)))
      = has_tombstone entries.
Proof.
  induction entries as [|[i f] rest IH]; intros n q Ho Hup Hwf Hc Hd.
  { exists q, n. rewrite Hd. by repeat split. }
  destruct (wf_drop_cons _ _ _ _ _ Hwf Hd) as [-> Hrest].
  assert (Hp : pending (FakeRedis.stream r (_stream_key q)) (_last_id q)
               = (S n, f) :: rest).
  { by rewrite Hc, pending_wf. }
  pose proof (dequeue_event_step q r true _ _ _ Ho Hup Hp) as Hstep.
  destruct (IH (S n) (set_last_id q (Id (S n)))) as (q' & m & Hrun & Hs & Ho' & Hc' & Hdel & Htomb);
    try done.
  cbn [_stream_key set_last_id] in Hdel, Htomb.
  cbn [deliveries has_tombstone]. destruct (classify f) as [l| |ret ls] eqn:Hf.
  - destruct (deliveries rest) as [|d ds] eqn:Hds.
    + exists q, n. rewrite Hd. cbn [deliveries has_tombstone]. rewrite Hf, Hds.
      by repeat split.
    + exists q', m. split; [|done].
      cbn [length]. rewrite (dequeue_many_skip _ q (set_last_id q (Id (S n))) r [l]); done.
  - exists q, n. rewrite Hd. cbn [deliveries has_tombstone]. rewrite Hf.
    by repeat split.
  - exists q', m. split; [|done].
    cbn [length dequeue_many map]. rewrite Hstep, Hrun. done.
Qed.

Lemma drain_exhausted r no_wait (entries : list Entry) : ∀ m q,
  _is_closed q = false → down r = false →
  wf_stream (FakeRedis.stream r (_stream_key q)) →
  _last_id q = Id m →
  drop m (FakeRedis.stream r (_stream_key q)) = entries →
  deliveries entries = [] →
  ∃ q' logs,
    dequeue_event q r no_wait
    = Some (Raise (QueueEmpty (exhausted_message (has_tombstone entries))), q', logs)
    ∧ same_static q q'
    ∧ _is_closed q' = has_tombstone entries.
Proof.
  induction entries as [|[i f] rest IH]; intros m q Ho Hup Hwf Hc Hd Hnil.
  { exists q, []. split; [|done]. apply dequeue_event_empty; [done..|].
    by rewrite Hc, pending_wf. }
  destruct (wf_drop_cons _ _ _ _ _ Hwf Hd) as [-> Hrest].
  assert (Hp : pending (FakeRedis.stream r (_stream_key q)) (_last_id q)
               = (S m, f) :: rest).
  { by rewrite Hc, pending_wf. }
  rewrite (dequeue_event_step q r no_wait _ _ _ Ho Hup Hp).
  cbn [deliveries has_tombstone] in *. destruct (classify f) as [l| |ret ls].
  - destruct (IH (S m) (set_last_id q (Id (S m)))) as (q' & logs & Hrun & Hs & Hcl);
      try done.
    rewrite Hrun. simpl. eauto.
  - eexists _, _. split; [reflexivity|]. done.
  - discriminate Hnil.
Qed.

(** What a stream of enqueued events followed by [rest] delivers. *)
Lemma deliveries_entries_from events : ∀ n rest,
  Forall round_trips events →
  deliveries (entries_from n events ++ rest)
  = map Parsed events ++ deliveries rest
  ∧ has_tombstone (entries_from n events ++ rest) = has_tombstone rest.
Proof.
  induction events as [|e events IH]; intros n rest Hrt; [done|].
  apply Forall_cons in Hrt as [He Hrt].
  cbn [entries_from app deliveries has_tombstone map].
  rewrite round_trips_classify by done.
  destruct (IH (S n) rest Hrt) as [-> ->]. done.
Qed.

End Drain.

(** X3. Draining a stream. For an open handle with its cursor after [n]
    entries of a stream with consecutive identifiers, on a client that is
    up: successive [dequeue_event(no_wait=True)] calls return, one per
    call and in stream order, the values of the entries after the cursor
    that deliver one, up to the first tombstone, skipped entries never
    showing; the call after them raises [QueueEmpty], and the handle is
    then closed exactly when a tombstone follows. *)
Theorem drain_returns_deliveries_in_order `{Runtime}
    (q : RedisEventQueue.t) (r : Redis) (n : nat) :
  RedisEventQueue._is_closed q = false →
  down r = false →
  wf_stream (FakeRedis.stream r (RedisEventQueue._stream_key q)) →
  RedisEventQueue._last_id q = Id n →
  ∃ q' q'' logs,
    dequeue_many
      (length (deliveries (drop n (FakeRedis.stream r (RedisEventQueue._stream_key q)))))
      q r
    = Some (map Return
              (deliveries (drop n (FakeRedis.stream r (RedisEventQueue._stream_key q)))),
            q')
    ∧ RedisEventQueue.dequeue_event q' r true
      = Some (Raise (QueueEmpty
                       (exhausted_message
                          (has_tombstone
                             (drop n (FakeRedis.stream r (RedisEventQueue._stream_key q)))))),
              q'', logs)
    ∧ RedisEventQueue.is_closed q''
      = has_tombstone (drop n (FakeRedis.stream r (RedisEventQueue._stream_key q))).
Proof.
  intros Ho Hup Hwf Hc.
  destruct (drain_deliveries r _ n q Ho Hup Hwf Hc eq_refl)
    as (q' & m & Hrun & (_ & Hk & _) & Ho' & Hc' & Hdel & Htomb).
  destruct (drain_exhausted r true
              (drop m (FakeRedis.stream r (RedisEventQueue._stream_key q'))) m q')
    as (q'' & logs & Hlast & _ & Hcl); try done.
  { by rewrite Hk. }
  { by rewrite Hk. }
  rewrite Hk, Htomb in Hlast. rewrite Hk, Htomb in Hcl.
  exists q', q'', logs. done.
Qed.

Lemma drain_returns_deliveries_in_order_witness :
  ∃ q' q'' logs,
    dequeue_many 2 (Sample.queue "t1") sample_noisy_client
    = Some ([Return (Parsed (Sample.event "Message" "{A}"));
             Return (Unparsed (PData "{B}"))], q')
    ∧ RedisEventQueue.dequeue_event q' sample_noisy_client true
      = Some (Raise (QueueEmpty "Queue closed"), q'', logs)
    ∧ RedisEventQueue.is_closed q'' = true.
Proof.
  destruct (drain_returns_deliveries_in_order (H := Sample.runtime)
              (Sample.queue "t1") sample_noisy_client 0%nat)
    as (q' & q'' & logs & Hmany & Hlast & Hclosed); try reflexivity.
  { intros i e Hi. repeat (destruct i as [|i]; [by injection Hi as <-|]). done. }
  exists q', q'', logs. split; [exact Hmany|]. split; [exact Hlast|exact Hclosed].
Defined.


(** ** Closing and tapping *)

Section CloseAndTap.
Context `{Runtime}.
Import RedisEventQueue.

Implicit Types (q : RedisEventQueue.t) (r : Redis).

(** The drain of a stream, as one statement for the proofs below. *)
Lemma drain_full q r n :
  _is_closed q = false → down r = false →
  wf_stream (FakeRedis.stream r (_stream_key q)) →
  _last_id q = Id n →
  ∃ q' q'' logs,
    dequeue_many (length (deliveries (drop n (FakeRedis.stream r (_stream_key q))))) q r
    = Some (map Return (deliveries (drop n (FakeRedis.stream r (_stream_key q)))), q')
    ∧ dequeue_event q' r true
      = Some (Raise (QueueEmpty
                       (exhausted_message
                          (has_tombstone (drop n (FakeRedis.stream r (_stream_key q)))))),
              q'', logs)
    ∧ _is_closed q''
      = has_tombstone (drop n (FakeRedis.stream r (_stream_key q))).
Proof.
  intros Ho Hup Hwf Hc.
  destruct (drain_deliveries r _ n q Ho Hup Hwf Hc eq_refl)
    as (q' & m & Hrun & (_ & Hk & _) & Ho' & Hc' & Hdel & Htomb).
  destruct (drain_exhausted r true
              (drop m (FakeRedis.stream r (_stream_key q'))) m q')
    as (q'' & logs & Hlast & _ & Hcl); try done.
  { by rewrite Hk. }
  { by rewrite Hk. }
  rewrite Hk, Htomb in Hlast. rewrite Hk, Htomb in Hcl.
  exists q', q'', logs. done.
Qed.

Lemma classify_tombstone_fields : classify tombstone = Tombstone.
Proof. reflexivity. Qed.

Lemma length_entries_from n events : length (entries_from n events) = length events.
Proof.
  revert n. induction events as [|e events IH]; intros n; simpl; [done|].
  by rewrite IH.
Qed.

(** The stream after a sequence of appends and a [close]. *)
Lemma stream_after_close q r0 events immediate :
  _is_closed q = false → down r0 = false →
  FakeRedis.stream (close q (enqueue_all q r0 events) immediate).1.2 (_stream_key q)
  = FakeRedis.stream r0 (_stream_key q)
    ++ entries_from (length (FakeRedis.stream r0 (_stream_key q))) events
    ++ [(S (length (FakeRedis.stream r0 (_stream_key q)) + length events), tombstone)].
Proof.
  intros Ho Hup.
  destruct (enqueue_all_up q r0 events Ho Hup) as (Hup' & _ & Hs & _).
  rewrite close_up by done. cbn [fst snd]. rewrite stream_with_streams_eq, Hs.
  rewrite length_app, length_entries_from. by rewrite <- app_assoc.
Qed.

Lemma descends_keeps q0 q stream_prefix :
  descends q0 q → well_keyed stream_prefix q0 →
  _stream_key q = _stream_key q0 ∧ _task_id q = _task_id q0
  ∧ well_keyed stream_prefix q.
Proof.
  intros Hd Hk0. induction Hd as [|q r Hd IH|q r no_wait o q' logs Hd IH Hrun].
  - done.
  - destruct IH as (Hk & Ht & Hwk). destruct Hwk as [Hkey Hcol].
    assert (Hsk : _stream_key (tap q r) = _stream_key q)
      by (by apply (tap_stream_key q r stream_prefix)).
    assert (Htid : _task_id (tap q r) = _task_id q).
    { change (_task_id (set_last_id (tap q r) (Id 0)) = _task_id q).
      by rewrite tap_fields. }
    split; [congruence|]. split; [congruence|].
    split; [congruence|congruence].
  - destruct IH as (Hk & Ht & Hwk). destruct Hwk as [Hkey Hcol].
    assert (Hs : same_static q q').
    { unfold dequeue_event in Hrun. destruct (_is_closed q).
      - injection Hrun as _ <- _. done.
      - by apply dequeue_loop_keeps in Hrun as (Hs & _). }
    destruct Hs as (H1 & H2 & _).
    split; [congruence|]. split; [congruence|].
    split; [congruence|congruence].
Qed.

End CloseAndTap.

(** X4. After [close()]. A fresh handle appends events to a stream without
    entries and closes it; whatever is appended to the stream after the
    tombstone, the handle then reads the events back in order, the next
    [dequeue_event] raises [QueueEmpty('Queue closed')] and closes the
    handle, and from then on [enqueue_event] through that handle appends
    nothing: it logs a warning and returns. *)
Theorem close_ends_the_drain `{Runtime}
    (q : RedisEventQueue.t) (r0 r : Redis) (events : list Event)
    (immediate : bool) (later : list Entry) :
  RedisEventQueue._is_closed q = false →
  RedisEventQueue._last_id q = Id 0 →
  down r0 = false →
  FakeRedis.stream r0 (RedisEventQueue._stream_key q) = [] →
  Forall round_trips events →
  down r = false →
  wf_stream (FakeRedis.stream r (RedisEventQueue._stream_key q)) →
  FakeRedis.stream r (RedisEventQueue._stream_key q)
  = FakeRedis.stream
      (RedisEventQueue.close q (enqueue_all q r0 events) immediate).1.2
      (RedisEventQueue._stream_key q)
    ++ later →
  ∃ q' q'' logs,
    dequeue_many (length events) q r
    = Some (map (λ e, Return (Parsed e)) events, q')
    ∧ RedisEventQueue.dequeue_event q' r true
      = Some (Raise (QueueEmpty "Queue closed"), q'', logs)
    ∧ RedisEventQueue.is_closed q'' = true
    ∧ ∀ e, RedisEventQueue.enqueue_event q'' r e
           = (Return (), r,
              [mkLog WARNING "Attempt to enqueue to closed RedisEventQueue"]).
Proof.
  intros Ho Hc Hup0 Hfresh Hrt Hup Hwf Hs.
  rewrite stream_after_close, Hfresh in Hs by done. simpl in Hs.
  destruct (drain_full q r 0%nat Ho Hup Hwf Hc) as (q' & q'' & logs & Hmany & Hlast & Hcl).
  rewrite drop_0, Hs, <- app_assoc in Hmany, Hlast, Hcl.
  destruct (deliveries_entries_from events 0%nat
              ([(S (length events), tombstone)] ++ later) Hrt) as [Hdel Htomb].
  rewrite Hdel in Hmany. rewrite Htomb in Hlast, Hcl.
  cbn [app deliveries has_tombstone] in Hmany, Hlast, Hcl.
  rewrite classify_tombstone_fields in Hmany, Hlast, Hcl.
  rewrite app_nil_r, length_map, map_map in Hmany.
  exists q', q'', logs. split; [exact Hmany|]. split; [exact Hlast|].
  split; [exact Hcl|].
  intros e. unfold RedisEventQueue.enqueue_event. by rewrite Hcl.
Qed.

Lemma close_ends_the_drain_witness :
  ∃ q' q'' logs,
    dequeue_many 1 (Sample.queue "t3")
      (RedisEventQueue.close (Sample.queue "t3")
         (RedisEventQueue.close (Sample.queue "t3")
            (enqueue_all (Sample.queue "t3") FakeRedis.__init__
               [Sample.event "Message" "{a}"]) false).1.2 false).1.2
    = Some ([Return (Parsed (Sample.event "Message" "{a}"))], q')
    ∧ RedisEventQueue.dequeue_event q'
        (RedisEventQueue.close (Sample.queue "t3")
           (RedisEventQueue.close (Sample.queue "t3")
              (enqueue_all (Sample.queue "t3") FakeRedis.__init__
                 [Sample.event "Message" "{a}"]) false).1.2 false).1.2 true
      = Some (Raise (QueueEmpty "Queue closed"), q'', logs)
    ∧ RedisEventQueue.is_closed q'' = true.
Proof.
  destruct (close_ends_the_drain (H := Sample.runtime) (Sample.queue "t3")
              FakeRedis.__init__
              (RedisEventQueue.close (Sample.queue "t3")
                 (RedisEventQueue.close (Sample.queue "t3")
                    (enqueue_all (Sample.queue "t3") FakeRedis.__init__
                       [Sample.event "Message" "{a}"]) false).1.2 false).1.2
              [Sample.event "Message" "{a}"] false [(3%nat, tombstone)])
    as (q' & q'' & logs & Hmany & Hlast & Hclosed & _); try reflexivity.
  { repeat constructor. exists Message, "{a}". repeat split; reflexivity. }
  { intros i e Hi. repeat (destruct i as [|i]; [by injection Hi as <-|]). done. }
  exists q', q'', logs. split; [exact Hmany|]. split; [exact Hlast|exact Hclosed].
Defined.

(** X5. Taps see what comes later, and only that. With a client that shows
    its [streams] dict and a handle keyed by the constructor on a task id
    without colon: whatever the stream holds at the time of [tap()], the
    tap returns the events appended afterwards through an open handle of
    the same stream, one per call and in order, and then finds the queue
    empty, without being closed. *)
Theorem tap_drains_only_later_events `{Runtime}
    (q writer : RedisEventQueue.t) (r : Redis) (stream_prefix : string)
    (events : list Event) :
  well_keyed stream_prefix q →
  RedisEventQueue._stream_key writer = RedisEventQueue._stream_key q →
  RedisEventQueue._is_closed writer = false →
  streams_attr r = DictAttr →
  down r = false →
  wf_stream (FakeRedis.stream r (RedisEventQueue._stream_key q)) →
  Forall round_trips events →
  ∃ q',
    dequeue_many (length events) (RedisEventQueue.tap q r)
      (enqueue_all writer r events)
    = Some (map (λ e, Return (Parsed e)) events, q')
    ∧ RedisEventQueue.dequeue_event q' (enqueue_all writer r events) true
      = Some (Raise (QueueEmpty ""), q', [])
    ∧ RedisEventQueue.is_closed q' = false.
Proof.
  intros [Hkey Hcol] Hw Ho Ha Hup Hwf Hrt.
  set (tp := RedisEventQueue.tap q r).
  set (lst := FakeRedis.stream r (RedisEventQueue._stream_key q)) in *.
  destruct (enqueue_all_up writer r events Ho Hup) as (Hup' & _ & Hs & _).
  rewrite Hw in Hs. fold lst in Hs.
  assert (Hk : RedisEventQueue._stream_key tp = RedisEventQueue._stream_key q)
    by (by apply (tap_stream_key q r stream_prefix)).
  assert (Hc : RedisEventQueue._last_id tp = Id (length lst))
    by (by apply tap_cursor_at_tail).
  assert (Hwf' : wf_stream (FakeRedis.stream (enqueue_all writer r events)
                              (RedisEventQueue._stream_key tp))).
  { rewrite Hk, Hs. by apply wf_entries_from. }
  eexists. split; [|split].
  - apply (dequeue_many_entries events lst); try done.
    + apply tap_is_open.
    + by rewrite Hk.
  - apply dequeue_event_empty; [apply tap_is_open|done|].
    cbn [RedisEventQueue._stream_key RedisEventQueue._last_id
         RedisEventQueue.set_last_id].
    rewrite pending_wf by done. apply drop_ge. rewrite Hk, Hs, length_app.
    clear. generalize (length lst).
    induction events as [|e events IH]; intros n; simpl; [lia|].
    specialize (IH (S n)). lia.
  - apply tap_is_open.
Qed.

Lemma tap_drains_only_later_events_witness :
  ∃ q',
    dequeue_many 1
      (RedisEventQueue.tap (Sample.queue "t4")
         (enqueue_all (Sample.queue "t4") FakeRedis.__init__
            [Sample.event "Message" "{before}"]))
      (enqueue_all (Sample.queue "t4")
         (enqueue_all (Sample.queue "t4") FakeRedis.__init__
            [Sample.event "Message" "{before}"])
         [Sample.event "Message" "{later}"])
    = Some ([Return (Parsed (Sample.event "Message" "{later}"))], q')
    ∧ RedisEventQueue.dequeue_event q'
        (enqueue_all (Sample.queue "t4")
           (enqueue_all (Sample.queue "t4") FakeRedis.__init__
              [Sample.event "Message" "{before}"])
           [Sample.event "Message" "{later}"]) true
      = Some (Raise (QueueEmpty ""), q', [])
    ∧ RedisEventQueue.is_closed q' = false.
Proof.
  apply (tap_drains_only_later_events (H := Sample.runtime)
           (Sample.queue "t4") (Sample.queue "t4")
           (enqueue_all (Sample.queue "t4") FakeRedis.__init__
              [Sample.event "Message" "{before}"])
           "a2a:test" [Sample.event "Message" "{later}"]); try reflexivity.
  - split; reflexivity.
  - intros i e Hi. repeat (destruct i as [|i]; [by injection Hi as <-|]). done.
  - repeat constructor. exists Message, "{later}". repeat split; reflexivity.
Defined.

(** X6. The stream of a task stays the stream of its handles. From a handle
    keyed by the constructor on a task id without colon, every handle
    reached by any sequence of [tap()] and [dequeue_event] calls has the
    same task id and the same stream key. *)
Theorem handles_stay_on_their_stream `{Runtime}
    (q0 q : RedisEventQueue.t) (stream_prefix : string) :
  well_keyed stream_prefix q0 →
  descends q0 q →
  RedisEventQueue._stream_key q = RedisEventQueue._stream_key q0
  ∧ RedisEventQueue._task_id q = RedisEventQueue._task_id q0.
Proof.
  intros Hk Hd. destruct (descends_keeps q0 q stream_prefix Hd Hk) as (H1 & H2 & _).
  by split.
Qed.

Lemma handles_stay_on_their_stream_witness :
  RedisEventQueue._stream_key
    (RedisEventQueue.tap
       (RedisEventQueue.tap (Sample.queue "t1") sample_noisy_client)
       FakeRedis.__init__)
  = RedisEventQueue._stream_key (Sample.queue "t1")
  ∧ RedisEventQueue._task_id
      (RedisEventQueue.tap
         (RedisEventQueue.tap (Sample.queue "t1") sample_noisy_client)
         FakeRedis.__init__)
    = RedisEventQueue._task_id (Sample.queue "t1").
Proof.
  apply (handles_stay_on_their_stream (H := Sample.runtime) (Sample.queue "t1") _
           "a2a:test").
  - split; reflexivity.
  - apply descends_tap, descends_tap, descends_refl.
Defined.

(** X7. A tap taken when the stream is already closed does not learn it. With
    a client that shows its [streams] dict, the first [dequeue_event] of a
    new tap raises the plain [QueueEmpty] of an empty queue and leaves the
    tap open, whatever the stream holds, a tombstone included, and whether
    or not the source handle is closed. *)
Theorem new_tap_finds_the_queue_empty `{Runtime}
    (q : RedisEventQueue.t) (r : Redis) (stream_prefix : string) (no_wait : bool) :
  well_keyed stream_prefix q →
  streams_attr r = DictAttr →
  down r = false →
  wf_stream (FakeRedis.stream r (RedisEventQueue._stream_key q)) →
  RedisEventQueue.dequeue_event (RedisEventQueue.tap q r) r no_wait
  = Some (Raise (QueueEmpty ""), RedisEventQueue.tap q r, [])
  ∧ RedisEventQueue.is_closed (RedisEventQueue.tap q r) = false.
Proof.
  intros [Hkey Hcol] Ha Hup Hwf.
  assert (Hk : RedisEventQueue._stream_key (RedisEventQueue.tap q r)
               = RedisEventQueue._stream_key q)
    by (by apply (tap_stream_key q r stream_prefix)).
  split; [|apply tap_is_open].
  apply dequeue_event_empty; [apply tap_is_open|done|].
  rewrite Hk, tap_cursor_at_tail, pending_wf by done. by apply drop_ge.
Qed.

Lemma new_tap_finds_the_queue_empty_witness :
  RedisEventQueue.dequeue_event
    (RedisEventQueue.tap (Sample.queue "t1") sample_noisy_client)
    sample_noisy_client false
  = Some (Raise (QueueEmpty ""),
          RedisEventQueue.tap (Sample.queue "t1") sample_noisy_client, [])
  ∧ RedisEventQueue.is_closed
      (RedisEventQueue.tap (Sample.queue "t1") sample_noisy_client) = false.
Proof.
  apply (new_tap_finds_the_queue_empty (H := Sample.runtime) (Sample.queue "t1")
           sample_noisy_client "a2a:test" false); try reflexivity.
  - split; reflexivity.
  - intros i e Hi. repeat (destruct i as [|i]; [by injection Hi as <-|]). done.
Defined.

(** ** The consumer loop while the stream is open *)

Section ConsumerPolling.
Context `{Runtime}.
Import RedisEventConsumer.

Implicit Types (q : RedisEventQueue.t) (env : nat → Redis).

(** The loop passes over the polls that find nothing. *)
Lemma consume_loop_passes_empty_polls k : ∀ fuel q env i0,
  RedisEventQueue._is_closed q = false →
  (∀ j, (j < k)%nat →
     down (env (i0 + j)%nat) = false
     ∧ pending (FakeRedis.stream (env (i0 + j)%nat) (RedisEventQueue._stream_key q))
         (RedisEventQueue._last_id q) = []) →
  consume_loop (k + fuel) q env i0 = consume_loop fuel q env (i0 + k)%nat.
Proof.
  induction k as [|k IH]; intros fuel q env i0 Ho Hempty.
  { by rewrite Nat.add_0_r. }
  destruct (Hempty 0%nat) as [Hup Hp]; [lia|]. rewrite Nat.add_0_r in Hup, Hp.
  cbn [Nat.add consume_loop].
  rewrite dequeue_event_empty by done.
  rewrite IH; [f_equal; lia|done|].
  intros j Hj. destruct (Hempty (S j)) as [Hup' Hp']; [lia|].
  by replace (S i0 + j)%nat with (i0 + S j)%nat by lia.
Qed.

Lemma anext_is_loop fuel pos q env :
  RedisEventQueue._is_closed q = false → pos ≠ Exhausted →
  anext fuel pos q env = consume_loop fuel q env O.
Proof.
  intros Ho Hpos. unfold anext, RedisEventQueue.is_closed.
  destruct pos; [done| |done]. by rewrite Ho.
Qed.

End ConsumerPolling.

(** X8. [consume_all] retries while the queue is empty and yields the event
    once it is there. On an open handle, when the first [k] polls of a
    resumption find nothing after the cursor and the next one finds an
    entry that delivers a value, the resumption yields that value, with
    the cursor on the entry, after [k] retries. *)
Theorem consume_all_yields_the_event_when_it_arrives `{Runtime}
    (q : RedisEventQueue.t) (env : nat → Redis) (pos : RedisEventConsumer.Position)
    (k extra : nat) i f rest ret ls :
  RedisEventQueue._is_closed q = false →
  pos ≠ RedisEventConsumer.Exhausted →
  (∀ j, (j < k)%nat →
     down (env j) = false
     ∧ pending (FakeRedis.stream (env j) (RedisEventQueue._stream_key q))
         (RedisEventQueue._last_id q) = []) →
  down (env k) = false →
  pending (FakeRedis.stream (env k) (RedisEventQueue._stream_key q))
    (RedisEventQueue._last_id q) = (i, f) :: rest →
  classify f = Deliver ret ls →
  RedisEventConsumer.anext (k + S extra) pos q env
  = Some (RedisEventConsumer.Yield ret, RedisEventConsumer.AtYield,
          RedisEventQueue.set_last_id q (Id i)).
Proof.
  intros Ho Hpos Hempty Hup Hp Hf.
  rewrite anext_is_loop by done.
  rewrite consume_loop_passes_empty_polls by done.
  cbn [Nat.add RedisEventConsumer.consume_loop].
  by rewrite (dequeue_event_step _ _ _ _ _ _ Ho Hup Hp), Hf.
Qed.

Lemma consume_all_yields_the_event_when_it_arrives_witness :
  RedisEventConsumer.anext 3 RedisEventConsumer.LoopHead (Sample.queue "t1")
    (λ j, match j with
          | 0%nat | 1%nat => FakeRedis.__init__
          | _ => enqueue_all (Sample.queue "t1") FakeRedis.__init__
                   [Sample.event "Message" "{A}"]
          end)
  = Some (RedisEventConsumer.Yield (Parsed (Sample.event "Message" "{A}")),
          RedisEventConsumer.AtYield,
          RedisEventQueue.set_last_id (Sample.queue "t1") (Id 1)).
Proof.
  apply (consume_all_yields_the_event_when_it_arrives (H := Sample.runtime)
           (Sample.queue "t1") _ RedisEventConsumer.LoopHead 2 0 1%nat
           (entry_fields (Sample.event "Message" "{A}")) []
           (Parsed (Sample.event "Message" "{A}")) []); try reflexivity.
  - discriminate.
  - intros j Hj. destruct j as [|[|j]]; [by split..|lia].
Defined.

(** X9. [consume_all] does not catch storage errors. On an open handle, when
    the first [k] polls of a resumption find nothing and the client is
    down at the next one, the [RedisError] of [dequeue_event] leaves the
    generator, which is then exhausted; the handle is as it was. *)
Theorem consume_all_propagates_storage_errors `{Runtime}
    (q : RedisEventQueue.t) (env : nat → Redis) (pos : RedisEventConsumer.Position)
    (k extra : nat) :
  RedisEventQueue._is_closed q = false →
  pos ≠ RedisEventConsumer.Exhausted →
  (∀ j, (j < k)%nat →
     down (env j) = false
     ∧ pending (FakeRedis.stream (env j) (RedisEventQueue._stream_key q))
         (RedisEventQueue._last_id q) = []) →
  down (env k) = true →
  RedisEventConsumer.anext (k + S extra) pos q env
  = Some (RedisEventConsumer.Propagated RedisError, RedisEventConsumer.Exhausted, q)
  ∧ ∀ fuel env', RedisEventConsumer.anext fuel RedisEventConsumer.Exhausted q env'
                 = Some (RedisEventConsumer.StopAsyncIteration,
                         RedisEventConsumer.Exhausted, q).
Proof.
  intros Ho Hpos Hempty Hdown. split; [|done].
  rewrite anext_is_loop by done.
  rewrite consume_loop_passes_empty_polls by done.
  cbn [Nat.add RedisEventConsumer.consume_loop].
  by rewrite dequeue_event_down.
Qed.

Lemma consume_all_propagates_storage_errors_witness :
  RedisEventConsumer.anext 2 RedisEventConsumer.LoopHead (Sample.queue "t1")
    (λ j, match j with
          | 0%nat => FakeRedis.__init__
          | _ => mkRedis ∅ DictAttr true
          end)
  = Some (RedisEventConsumer.Propagated RedisError, RedisEventConsumer.Exhausted,
          Sample.queue "t1").
Proof.
  refine (proj1 (consume_all_propagates_storage_errors (H := Sample.runtime)
                   (Sample.queue "t1") _ RedisEventConsumer.LoopHead 1 0 _ _ _ _)).
  - reflexivity.
  - discriminate.
  - intros j Hj. destruct j as [|j]; [by split|lia].
  - reflexivity.
Defined.

(** ** The registry of the manager *)

Section Registry.
Context `{Runtime}.
Import RedisEventQueue.

(** The drain of a stream of events closed by one tombstone. *)
Lemma drain_after_close (q : RedisEventQueue.t) r0 events immediate :
  _is_closed q = false → _last_id q = Id 0 → down r0 = false →
  FakeRedis.stream r0 (_stream_key q) = [] →
  Forall round_trips events →
  ∃ q' q'' logs,
    dequeue_many (length events) q (close q (enqueue_all q r0 events) immediate).1.2
    = Some (map (λ e, Return (Parsed e)) events, q')
    ∧ dequeue_event q' (close q (enqueue_all q r0 events) immediate).1.2 true
      = Some (Raise (QueueEmpty "Queue closed"), q'', logs)
    ∧ _is_closed q'' = true.
Proof.
  intros Ho Hc Hup0 Hfresh Hrt.
  set (r := (close q (enqueue_all q r0 events) immediate).1.2).
  assert (Hs : FakeRedis.stream r (_stream_key q)
               = entries_from 0 events ++ [(S (length events), tombstone)]).
  { unfold r. rewrite stream_after_close, Hfresh by done. done. }
  assert (Hup : down r = false).
  { destruct (enqueue_all_up q r0 events Ho Hup0) as (Hup' & _).
    unfold r. by rewrite close_up. }
  assert (Hwf : wf_stream (FakeRedis.stream r (_stream_key q))).
  { rewrite Hs. replace (S (length events)) with
      (S (length (entries_from 0 events))) by (by rewrite length_entries_from).
    apply wf_stream_snoc, (wf_entries_from [] events), wf_stream_nil. }
  destruct (drain_full q r 0%nat Ho Hup Hwf Hc) as (q' & q'' & logs & Hmany & Hlast & Hcl).
  rewrite drop_0, Hs in Hmany, Hlast, Hcl.
  destruct (deliveries_entries_from events 0%nat
              [(S (length events), tombstone)] Hrt) as [Hdel Htomb].
  rewrite Hdel in Hmany. rewrite Htomb in Hlast, Hcl.
  cbn [app deliveries has_tombstone] in Hmany, Hlast, Hcl.
  rewrite classify_tombstone_fields in Hmany, Hlast, Hcl.
  rewrite app_nil_r, length_map, map_map in Hmany.
  by exists q', q'', logs.
Qed.

End Registry.

(** X10. [add] and [get]. Registering a queue under a task id that has none
    makes [get] return it and leaves the other task ids as they were; a
    second [add] for the same task id raises [TaskQueueExists] and changes
    nothing. *)
Theorem add_registers_once
    (self : RedisQueueManager.t) (task_id : string) (queue queue' : nat) :
  RedisQueueManager.get self task_id = None →
  ∃ self',
    RedisQueueManager.add self task_id queue = (Return (), self')
    ∧ RedisQueueManager.get self' task_id = Some queue
    ∧ (∀ other, other ≠ task_id →
         RedisQueueManager.get self' other = RedisQueueManager.get self other)
    ∧ RedisQueueManager.add self' task_id queue' = (Raise TaskQueueExists, self').
Proof.
  unfold RedisQueueManager.get. intros Hnone.
  unfold RedisQueueManager.add at 1. rewrite Hnone.
  eexists. split; [reflexivity|]. simpl. split; [apply lookup_insert_eq|].
  split.
  - intros other Hne. by apply lookup_insert_ne.
  - unfold RedisQueueManager.add. simpl. by rewrite lookup_insert_eq.
Qed.

Lemma add_registers_once_witness :
  ∃ self',
    RedisQueueManager.add (RedisQueueManager.__init__ "a2a:task") "t3" 0%nat
    = (Return (), self')
    ∧ RedisQueueManager.get self' "t3" = Some 0%nat
    ∧ (∀ other, other ≠ "t3" →
         RedisQueueManager.get self' other
         = RedisQueueManager.get (RedisQueueManager.__init__ "a2a:task") other)
    ∧ RedisQueueManager.add self' "t3" 1%nat = (Raise TaskQueueExists, self').
Proof.
  apply (add_registers_once (RedisQueueManager.__init__ "a2a:task") "t3" 0%nat 1%nat).
  reflexivity.
Defined.

(** X11. [close] of the manager. For a registered task and a client that is
    up, [close] removes the task from the registry, so that [get] and
    [tap] then answer [None] and a second [close] raises [NoTaskQueue],
    leaves the other tasks registered, and appends one tombstone at the
    end of the stream of the registered queue. *)
Theorem manager_close_unregisters_and_appends_tombstone
    (self : RedisQueueManager.t) (h : gmap nat RedisEventQueue.t) (r : Redis)
    (task_id : string) (c : nat) (q : RedisEventQueue.t) :
  RedisQueueManager.get self task_id = Some c →
  h !! c = Some q →
  down r = false →
  ∃ self' r',
    RedisQueueManager.close self h r task_id = Some (Return (), self', r', [])
    ∧ RedisQueueManager.get self' task_id = None
    ∧ RedisQueueManager.tap self' h r' task_id = Some (None, h)
    ∧ RedisQueueManager.close self' h r' task_id
      = Some (Raise NoTaskQueue, self', r', [])
    ∧ (∀ other, other ≠ task_id →
         RedisQueueManager.get self' other = RedisQueueManager.get self other)
    ∧ FakeRedis.stream r' (RedisEventQueue._stream_key q)
      = FakeRedis.stream r (RedisEventQueue._stream_key q)
        ++ [(S (length (FakeRedis.stream r (RedisEventQueue._stream_key q))),
             [(Str "type", Str "CLOSE")])].
Proof.
  unfold RedisQueueManager.get. intros Hc Hq Hup.
  unfold RedisQueueManager.close at 1. rewrite Hc, Hq.
  unfold RedisEventQueue.close, FakeRedis.set, FakeRedis.xadd. rewrite Hup.
  cbn [fst snd]. rewrite Hup.
  eexists _, _. split; [reflexivity|].
  cbn [RedisQueueManager._task_queue RedisQueueManager.set_task_queue].
  split; [apply lookup_delete_eq|]. split.
  { unfold RedisQueueManager.tap. simpl. by rewrite lookup_delete_eq. }
  split.
  { unfold RedisQueueManager.close. simpl. by rewrite lookup_delete_eq. }
  split.
  { intros other Hne. by apply lookup_delete_ne. }
  apply stream_with_streams_eq.
Qed.

Lemma manager_close_unregisters_and_appends_tombstone_witness :
  ∃ self' r',
    RedisQueueManager.close
      (RedisQueueManager.mk "a2a:task" {[ "t2" := 0%nat ]})
      {[ 0%nat := Sample.queue "t2" ]} FakeRedis.__init__ "t2"
    = Some (Return (), self', r', [])
    ∧ RedisQueueManager.get self' "t2" = None
    ∧ FakeRedis.stream r' "a2a:test:t2" = [(1%nat, [(Str "type", Str "CLOSE")])].
Proof.
  destruct (manager_close_unregisters_and_appends_tombstone
              (RedisQueueManager.mk "a2a:task" {[ "t2" := 0%nat ]})
              {[ 0%nat := Sample.queue "t2" ]} FakeRedis.__init__ "t2" 0%nat
              (Sample.queue "t2"))
    as (self' & r' & Hclose & Hget & _ & _ & _ & Hstream); try reflexivity.
  exists self', r'. split; [exact Hclose|]. split; [exact Hget|exact Hstream].
Defined.

(** X12. A queue made again for a closed task replays the closed stream.
    [create_or_tap] registers a queue for a task without stream; events
    are enqueued through it and the manager closes the task. A later
    [create_or_tap] for the same task id registers a new queue object on
    the same stream with its cursor at the beginning: it reads the old
    events again, in order, and is closed by the old tombstone. *)
Theorem recreated_queue_replays_the_closed_stream `{Runtime}
    (self : RedisQueueManager.t) (h : gmap nat RedisEventQueue.t) (r0 : Redis)
    (task_id : string) (events : list Event) :
  RedisQueueManager.get self task_id = None →
  down r0 = false →
  FakeRedis.stream r0 (RedisQueueManager._stream_prefix self +:+ ":" +:+ task_id) = [] →
  Forall round_trips events →
  ∃ c self1 h1 q self2 r2 c' self3 h3,
    RedisQueueManager.create_or_tap self h r0 task_id = Some (c, self1, h1)
    ∧ h1 !! c = Some q
    ∧ RedisQueueManager.close self1 h1 (enqueue_all q r0 events) task_id
      = Some (Return (), self2, r2, [])
    ∧ RedisQueueManager.create_or_tap self2 h1 r2 task_id = Some (c', self3, h3)
    ∧ c' ≠ c
    ∧ RedisQueueManager.get self3 task_id = Some c'
    ∧ h3 !! c' = Some q
    ∧ ∃ q' q'' logs,
        dequeue_many (length events) q r2
        = Some (map (λ e, Return (Parsed e)) events, q')
        ∧ RedisEventQueue.dequeue_event q' r2 true
          = Some (Raise (QueueEmpty "Queue closed"), q'', logs)
        ∧ RedisEventQueue.is_closed q'' = true.
Proof.
  unfold RedisQueueManager.get. intros Hnone Hup Hfresh Hrt.
  set (q := RedisEventQueue.__init__ task_id (RedisQueueManager._stream_prefix self)
              None RedisEventQueue.default_read_block_ms).
  set (c := fresh (dom h)).
  set (h1 := <[c := q]> h).
  set (self1 := RedisQueueManager.set_task_queue self
                  (<[task_id := c]> (RedisQueueManager._task_queue self))).
  set (r2 := (RedisEventQueue.close q (enqueue_all q r0 events) false).1.2).
  set (c' := fresh (dom h1)).
  assert (Hc1 : h1 !! c = Some q) by apply lookup_insert_eq.
  assert (Hclose : RedisQueueManager.close self1 h1 (enqueue_all q r0 events) task_id
                   = Some (Return (),
                           RedisQueueManager.set_task_queue self1
                             (delete task_id (RedisQueueManager._task_queue self1)),
                           r2, [])).
  { unfold RedisQueueManager.close. simpl. rewrite lookup_insert_eq, Hc1.
    destruct (enqueue_all_up q r0 events eq_refl Hup) as (Hup' & _).
    unfold r2. by rewrite close_up. }
  assert (Hne : c' ≠ c).
  { intros Heq. pose proof (is_fresh (dom h1)) as Hf. fold c' in Hf. rewrite Heq in Hf.
    apply Hf, elem_of_dom. eauto. }
  exists c, self1, h1, q.
  eexists _, r2, c', _, (<[c' := q]> h1).
  split; [by apply create_or_tap_unregistered|].
  split; [done|]. split; [exact Hclose|]. split.
  { apply create_or_tap_unregistered. simpl. apply lookup_delete_eq. }
  split; [done|]. split.
  { unfold RedisQueueManager.get. simpl. apply lookup_insert_eq. }
  split; [apply lookup_insert_eq|].
  by apply (drain_after_close q r0 events false).
Qed.

Lemma recreated_queue_replays_the_closed_stream_witness :
  ∃ c self1 h1 q self2 r2 c' self3 h3,
    RedisQueueManager.create_or_tap (RedisQueueManager.__init__ "a2a:task") ∅
      FakeRedis.__init__ "t5" = Some (c, self1, h1)
    ∧ h1 !! c = Some q
    ∧ RedisQueueManager.close self1 h1
        (enqueue_all q FakeRedis.__init__ [Sample.event "Message" "{A}"]) "t5"
      = Some (Return (), self2, r2, [])
    ∧ RedisQueueManager.create_or_tap self2 h1 r2 "t5" = Some (c', self3, h3)
    ∧ c' ≠ c
    ∧ RedisQueueManager.get self3 "t5" = Some c'
    ∧ h3 !! c' = Some q
    ∧ ∃ q' q'' logs,
        dequeue_many 1 q r2
        = Some ([Return (Parsed (Sample.event "Message" "{A}"))], q')
        ∧ RedisEventQueue.dequeue_event q' r2 true
          = Some (Raise (QueueEmpty "Queue closed"), q'', logs)
        ∧ RedisEventQueue.is_closed q'' = true.
Proof.
  apply (recreated_queue_replays_the_closed_stream (H := Sample.runtime)
           (RedisQueueManager.__init__ "a2a:task") ∅ FakeRedis.__init__ "t5"
           [Sample.event "Message" "{A}"]); try reflexivity.
  repeat constructor. exists Message, "{A}". repeat split; reflexivity.
Defined.

(** ** The client of the tests *)

(** X13. [xadd] and [xread]. On a client that is up and a stream with
    consecutive identifiers, [xadd] returns the next identifier and keeps
    the identifiers consecutive; a read of one entry from the previous end
    of the stream returns the new entry, a read from the new identifier or
    from ['$'] returns nothing, and the other streams are as they were. *)
Theorem xadd_then_xread (r : Redis) (key : string) (fields : Fields)
    (maxlen : option Z) (block : Z) (count : option nat) :
  down r = false →
  wf_stream (FakeRedis.stream r key) →
  (FakeRedis.xadd r key fields maxlen).1
  = Return (S (length (FakeRedis.stream r key)))
  ∧ wf_stream (FakeRedis.stream (FakeRedis.xadd r key fields maxlen).2 key)
  ∧ FakeRedis.xread (FakeRedis.xadd r key fields maxlen).2 key
      (Id (length (FakeRedis.stream r key))) block (Some 1%nat)
    = Return [(key, [(S (length (FakeRedis.stream r key)), fields)])]
  ∧ FakeRedis.xread (FakeRedis.xadd r key fields maxlen).2 key
      (Id (S (length (FakeRedis.stream r key)))) block count
    = Return []
  ∧ FakeRedis.xread (FakeRedis.xadd r key fields maxlen).2 key Dollar block count
    = Return []
  ∧ ∀ other, other ≠ key →
      FakeRedis.stream (FakeRedis.xadd r key fields maxlen).2 other
      = FakeRedis.stream r other.
Proof.
  intros Hup Hwf. unfold FakeRedis.xadd. rewrite Hup. cbn [fst snd].
  set (lst := FakeRedis.stream r key).
  set (r' := FakeRedis.with_streams r _).
  assert (Hs : FakeRedis.stream r' key = lst ++ [(S (length lst), fields)])
    by apply stream_with_streams_eq.
  assert (Hwf' : wf_stream (FakeRedis.stream r' key))
    by (rewrite Hs; by apply wf_stream_snoc).
  assert (Hlen : length (FakeRedis.stream r' key) = S (length lst))
    by (rewrite Hs, length_app; simpl; lia).
  split; [done|]. split; [done|]. split.
  { rewrite xread_one by done. rewrite pending_wf by done.
    rewrite Hs. by rewrite drop_app_length. }
  assert (Hnone : ∀ c, FakeRedis.last_num (FakeRedis.stream r' key) c = S (length lst) →
                       FakeRedis.xread r' key c block count = Return []).
  { intros c Hc. assert (Hup' : down r' = false) by done.
    unfold FakeRedis.xread. rewrite Hup'.
    cbn zeta. rewrite Hc, wf_filter_drop by done.
    rewrite drop_ge; [done|]. by rewrite Hlen. }
  split; [by apply Hnone|]. split; [by apply Hnone|].
  intros other Hne. by apply stream_with_streams_ne.
Qed.

Lemma xadd_then_xread_witness :
  FakeRedis.xread
    (FakeRedis.xadd FakeRedis.__init__ "s" [(Str "type", Str "Message")] None).2
    "s" (Id 0) 0 (Some 1%nat)
  = Return [("s", [(1%nat, [(Str "type", Str "Message")])])].
Proof.
  destruct (xadd_then_xread FakeRedis.__init__ "s" [(Str "type", Str "Message")]
              None 0 None) as (_ & _ & Hread & _); [reflexivity|apply wf_stream_nil|].
  exact Hread.
Defined.

(** ** Appends only add at the end *)



(** ** [clear_events] *)

(** X15. [clear_events] on a client that is up removes the stream of the handle
    and no other: afterwards the stream has no entry, tombstone included,
    so that every open handle of the stream finds the queue empty and
    stays open, its cursor where it was. *)
Theorem clear_events_empties_the_stream `{Runtime}
    (q reader : RedisEventQueue.t) (r : Redis) (clear_child_queues no_wait : bool) :
  down r = false →
  RedisEventQueue._stream_key reader = RedisEventQueue._stream_key q →
  RedisEventQueue._is_closed reader = false →
  (RedisEventQueue.clear_events q r clear_child_queues).1.1 = Return ()
  ∧ FakeRedis.stream (RedisEventQueue.clear_events q r clear_child_queues).1.2
      (RedisEventQueue._stream_key q) = []
  ∧ (∀ other, other ≠ RedisEventQueue._stream_key q →
       FakeRedis.stream (RedisEventQueue.clear_events q r clear_child_queues).1.2 other
       = FakeRedis.stream r other)
  ∧ RedisEventQueue.dequeue_event reader
      (RedisEventQueue.clear_events q r clear_child_queues).1.2 no_wait
    = Some (Raise (QueueEmpty ""), reader, []).
Proof.
  intros Hup Hkey Ho.
  unfold RedisEventQueue.clear_events, FakeRedis.delete. rewrite Hup. cbn [fst snd].
  set (r' := FakeRedis.with_streams r _).
  assert (Hs : FakeRedis.stream r' (RedisEventQueue._stream_key q) = []).
  { unfold FakeRedis.stream, r'. simpl. by rewrite lookup_delete_eq. }
  split; [done|]. split; [done|]. split.
  { intros other Hne. unfold FakeRedis.stream, r'. simpl.
    by rewrite lookup_delete_ne. }
  apply dequeue_event_empty; [done|done|].
  by rewrite Hkey, Hs.
Qed.

Lemma clear_events_empties_the_stream_witness :
  RedisEventQueue.dequeue_event (Sample.queue "t1")
    (RedisEventQueue.clear_events (Sample.queue "t1") sample_noisy_client true).1.2
    true
  = Some (Raise (QueueEmpty ""), Sample.queue "t1", []).
Proof.
  destruct (clear_events_empties_the_stream (H := Sample.runtime)
              (Sample.queue "t1") (Sample.queue "t1") sample_noisy_client true true
              eq_refl eq_refl eq_refl)
    as (_ & _ & _ & Hread).
  exact Hread.
Defined.

(** ** Storage errors outside [enqueue_event] *)

(** X16. [close] and [clear_events] are best effort: when the client is down,
    each logs the exception at level ERROR and returns normally, and
    nothing is written. No tombstone having reached the stream, a reader
    that has read all of it finds the queue empty, not closed, once the
    client is up again. *)
Theorem close_and_clear_events_swallow_storage_errors `{Runtime}
    (q reader : RedisEventQueue.t) (r : Redis)
    (immediate clear_child_queues no_wait : bool) :
  down r = true →
  RedisEventQueue._stream_key reader = RedisEventQueue._stream_key q →
  RedisEventQueue._is_closed reader = false →
  wf_stream (FakeRedis.stream r (RedisEventQueue._stream_key q)) →
  RedisEventQueue._last_id reader
  = Id (length (FakeRedis.stream r (RedisEventQueue._stream_key q))) →
  RedisEventQueue.close q r immediate
  = (Return (), r, [mkLog ERROR "Failed to write close marker to redis"])
  ∧ RedisEventQueue.clear_events q r clear_child_queues
    = (Return (), r,
       [mkLog ERROR "Failed to delete redis stream during clear_events"])
  ∧ RedisEventQueue.dequeue_event reader
      (mkRedis (streams (RedisEventQueue.close q r immediate).1.2)
         (streams_attr r) false)
      no_wait
    = Some (Raise (QueueEmpty ""), reader, []).
Proof.
  intros Hd Hkey Ho Hwf Hc.
  assert (Hclose : RedisEventQueue.close q r immediate
                   = (Return (), r, [mkLog ERROR "Failed to write close marker to redis"])).
  { unfold RedisEventQueue.close, FakeRedis.set. by rewrite Hd. }
  split; [exact Hclose|]. split.
  { unfold RedisEventQueue.clear_events, FakeRedis.delete. by rewrite Hd. }
  rewrite Hclose. cbn [fst snd].
  apply dequeue_event_empty; [done|done|].
  change (FakeRedis.stream (mkRedis (streams r) (streams_attr r) false)
            (RedisEventQueue._stream_key reader))
    with (FakeRedis.stream r (RedisEventQueue._stream_key reader)).
  rewrite Hkey, Hc, pending_wf by done. by apply drop_ge.
Qed.

Lemma close_and_clear_events_swallow_storage_errors_witness :
  RedisEventQueue.close (Sample.queue "t1") (mkRedis ∅ DictAttr true) false
  = (Return (), mkRedis ∅ DictAttr true,
     [mkLog ERROR "Failed to write close marker to redis"])
  ∧ RedisEventQueue.clear_events (Sample.queue "t1") (mkRedis ∅ DictAttr true) true
    = (Return (), mkRedis ∅ DictAttr true,
       [mkLog ERROR "Failed to delete redis stream during clear_events"])
  ∧ RedisEventQueue.dequeue_event (Sample.queue "t1")
      (mkRedis
         (streams (RedisEventQueue.close (Sample.queue "t1")
                     (mkRedis ∅ DictAttr true) false).1.2)
         DictAttr false)
      true
    = Some (Raise (QueueEmpty ""), Sample.queue "t1", []).
Proof.
  apply (close_and_clear_events_swallow_storage_errors (H := Sample.runtime)
           (Sample.queue "t1") (Sample.queue "t1") (mkRedis ∅ DictAttr true)
           false true true eq_refl eq_refl eq_refl).
  - apply wf_stream_nil.
  - reflexivity.
Defined.

(** X17. A storage error on read is logged and re-raised, and costs no entry:
    on an open handle and a client that is down, [dequeue_event] raises
    [RedisError] after logging it at level ERROR and leaves the handle,
    cursor included, as it was. *)
Theorem read_error_is_raised_and_keeps_the_cursor `{Runtime}
    (q : RedisEventQueue.t) (r : Redis) (no_wait : bool) :
  RedisEventQueue._is_closed q = false →
  down r = true →
  RedisEventQueue.dequeue_event q r no_wait
  = Some (Raise RedisError, q, [mkLog ERROR "Failed to XREAD from redis stream"]).
Proof.
  intros Ho Hd. unfold RedisEventQueue.dequeue_event. rewrite Ho.
  unfold RedisEventQueue.dequeue_fuel. cbn [RedisEventQueue.dequeue_loop].
  by rewrite xread_down.
Qed.

Lemma read_error_is_raised_and_keeps_the_cursor_witness :
  RedisEventQueue.dequeue_event (Sample.queue "t1") (mkRedis ∅ DictAttr true) true
  = Some (Raise RedisError, Sample.queue "t1",
          [mkLog ERROR "Failed to XREAD from redis stream"]).
Proof.
  apply (read_error_is_raised_and_keeps_the_cursor (H := Sample.runtime)
           (Sample.queue "t1") (mkRedis ∅ DictAttr true) true); reflexivity.
Defined.

(** ** The stream injector and the queue *)

Section Injector.
Context `{InjectorRuntime}.

Lemma eqb_empty_false (s : string) : s ≠ "" → String.eqb s "" = false.
Proof. intros Hne. by apply String.eqb_neq. Qed.

(** An append of the injector, connected, on a client that is up. *)
Lemma _append_to_stream_up (inj : StreamInjector.t) (r : Redis) (task_id : string)
    (event_data : Fields) :
  StreamInjector._connected inj = true → StreamInjector._client inj = true →
  task_id ≠ "" → down r = false →
  StreamInjector._append_to_stream inj r task_id event_data
  = (StreamInjector.Ok (S (length (FakeRedis.stream r ("a2a:task:" +:+ task_id)))),
     FakeRedis.with_streams r
       (<["a2a:task:" +:+ task_id :=
            FakeRedis.stream r ("a2a:task:" +:+ task_id)
            ++ [(S (length (FakeRedis.stream r ("a2a:task:" +:+ task_id))), event_data)]]>
          (streams r))).
Proof.
  intros Hc Hcl Hne Hup.
  unfold StreamInjector._append_to_stream, StreamInjector._get_stream_key.
  rewrite Hc, Hcl, eqb_empty_false by done. simpl.
  unfold FakeRedis.xadd. by rewrite Hup.
Qed.

(** The first read of a handle whose cursor stood at the end of the
    stream before one entry was appended to it. *)
Lemma dequeue_appended_entry (reader : RedisEventQueue.t) (r : Redis)
    (fields : Fields) (no_wait : bool) ret ls :
  RedisEventQueue._is_closed reader = false → down r = false →
  wf_stream (FakeRedis.stream r (RedisEventQueue._stream_key reader)) →
  RedisEventQueue._last_id reader
  = Id (length (FakeRedis.stream r (RedisEventQueue._stream_key reader))) →
  classify fields = Deliver ret ls →
  RedisEventQueue.dequeue_event reader
    (FakeRedis.with_streams r
       (<[RedisEventQueue._stream_key reader :=
            FakeRedis.stream r (RedisEventQueue._stream_key reader)
            ++ [(S (length (FakeRedis.stream r (RedisEventQueue._stream_key reader))),
                 fields)]]>
          (streams r)))
    no_wait
  = Some (Return ret,
          RedisEventQueue.set_last_id reader
            (Id (S (length (FakeRedis.stream r (RedisEventQueue._stream_key reader))))),
          ls).
Proof.
  intros Ho Hup Hwf Hc Hf.
  set (lst := FakeRedis.stream r (RedisEventQueue._stream_key reader)) in *.
  set (r' := FakeRedis.with_streams r _).
  assert (Hs : FakeRedis.stream r' (RedisEventQueue._stream_key reader)
               = lst ++ [(S (length lst), fields)])
    by apply stream_with_streams_eq.
  assert (Hp : pending (FakeRedis.stream r' (RedisEventQueue._stream_key reader))
                 (RedisEventQueue._last_id reader) = [(S (length lst), fields)]).
  { rewrite Hc, pending_wf.
    - rewrite Hs. by rewrite drop_app_length.
    - rewrite Hs. by apply wf_stream_snoc. }
  assert (Hup' : down r' = false) by done.
  by rewrite (dequeue_event_step _ _ _ _ _ _ Ho Hup' Hp), Hf.
Qed.

End Injector.

(** X18. What [append_raw] injects, a queue with the default prefix reads. A
    connected injector appends, for a non-empty task id and on a client
    that is up, an entry of a known kind whose payload loads and parses:
    a handle on the stream of a queue built for that task with the default
    prefix ['a2a:task'], with its cursor at the end of the stream, returns
    the parsed event at its next [dequeue_event]; the [timestamp] and
    [task_id] fields of the entry play no part. *)
Theorem append_raw_is_read_by_the_queue `{Runtime}
    (inj : StreamInjector.t) (r : Redis) (task_id event_type payload now : string)
    (reader : RedisEventQueue.t) (no_wait : bool) m d e :
  StreamInjector._connected inj = true →
  StreamInjector._client inj = true →
  task_id ≠ "" →
  down r = false →
  RedisEventQueue._stream_key reader
  = RedisEventQueue._stream_key
      (RedisEventQueue.__init__ task_id RedisEventQueue.default_stream_prefix None
         RedisEventQueue.default_read_block_ms) →
  RedisEventQueue._is_closed reader = false →
  wf_stream (FakeRedis.stream r (RedisEventQueue._stream_key reader)) →
  RedisEventQueue._last_id reader
  = Id (length (FakeRedis.stream r (RedisEventQueue._stream_key reader))) →
  _TYPE_MAP event_type = Some m →
  json_loads payload = Some d →
  parse_obj m (PData d) = Some e →
  (StreamInjector.append_raw inj r task_id event_type payload now).1
  = StreamInjector.Ok
      (S (length (FakeRedis.stream r (RedisEventQueue._stream_key reader))))
  ∧ RedisEventQueue.dequeue_event reader
      (StreamInjector.append_raw inj r task_id event_type payload now).2 no_wait
    = Some (Return (Parsed e),
            RedisEventQueue.set_last_id reader
              (Id (S (length (FakeRedis.stream r (RedisEventQueue._stream_key reader))))),
            []).
Proof.
  intros Hc Hcl Hne Hup Hkey Ho Hwf Hcur Hm Hd Hp.
  assert (Hk : RedisEventQueue._stream_key reader = "a2a:task:" +:+ task_id)
    by (rewrite Hkey; reflexivity).
  unfold StreamInjector.append_raw. rewrite eqb_empty_false by done.
  rewrite _append_to_stream_up by done. cbn [fst snd]. rewrite <- Hk.
  split; [done|].
  apply dequeue_appended_entry; try done.
  unfold classify. simpl.
  assert (Htype : (<["task_id" := Str task_id]>
                     (<["timestamp" := Str now]>
                        (<["payload" := Str payload]>
                           (<["type" := Str event_type]> (∅ : gmap string rstr)))))
                  !! "type" = Some (Str event_type)).
  { do 3 (rewrite lookup_insert_ne by done). apply lookup_insert_eq. }
  assert (Hpay : (<["task_id" := Str task_id]>
                    (<["timestamp" := Str now]>
                       (<["payload" := Str payload]>
                          (<["type" := Str event_type]> (∅ : gmap string rstr)))))
                 !! "payload" = Some (Str payload)).
  { do 2 (rewrite lookup_insert_ne by done). apply lookup_insert_eq. }
  rewrite Htype, Hpay. unfold RedisEventQueue.is_close_tag.
  rewrite bool_decide_eq_false_2.
  - simpl. by rewrite Hm, Hd, Hp.
  - intros [= Heq]. rewrite Heq in Hm. discriminate Hm.
Qed.

Lemma append_raw_is_read_by_the_queue_witness :
  (StreamInjector.append_raw (StreamInjector.mk "redis://localhost:6379/0" true true)
     FakeRedis.__init__ "task456" "Message" "{data}" "2025-01-01T00:00:00+00:00").1
  = StreamInjector.Ok 1%nat
  ∧ RedisEventQueue.dequeue_event
      (RedisEventQueue.__init__ "task456" "a2a:task" None 500)
      (StreamInjector.append_raw (StreamInjector.mk "redis://localhost:6379/0" true true)
         FakeRedis.__init__ "task456" "Message" "{data}" "2025-01-01T00:00:00+00:00").2
      true
    = Some (Return (Parsed (Sample.event "Message" "{data}")),
            RedisEventQueue.set_last_id
              (RedisEventQueue.__init__ "task456" "a2a:task" None 500) (Id 1),
            []).
Proof.
  apply (append_raw_is_read_by_the_queue (H := Sample.runtime)
           (StreamInjector.mk "redis://localhost:6379/0" true true)
           FakeRedis.__init__ "task456" "Message" "{data}" "2025-01-01T00:00:00+00:00"
           (RedisEventQueue.__init__ "task456" "a2a:task" None 500) true
           Message "{data}" (Sample.event "Message" "{data}")); try reflexivity.
  - discriminate.
  - apply wf_stream_nil.
Defined.

(** X19. What [stream_message] injects from a dict, a queue with the default
    prefix reads as a [Message]. A connected injector streams, for
    non-empty task and context ids and on a client that is up, a dict that
    [json.dumps] and [json.loads] give back and the [Message] model
    parses: a handle on the stream of a default-prefix queue of the task,
    with its cursor at the end of the stream, returns the parsed message
    at its next [dequeue_event]. *)
Theorem stream_message_is_read_by_the_queue `{InjectorRuntime}
    (inj : StreamInjector.t) (r : Redis) (context_id task_id : string) (data : Data)
    (reader : RedisEventQueue.t) (no_wait : bool) e :
  StreamInjector._connected inj = true →
  StreamInjector._client inj = true →
  task_id ≠ "" →
  context_id ≠ "" →
  down r = false →
  RedisEventQueue._stream_key reader
  = RedisEventQueue._stream_key
      (RedisEventQueue.__init__ task_id RedisEventQueue.default_stream_prefix None
         RedisEventQueue.default_read_block_ms) →
  RedisEventQueue._is_closed reader = false →
  wf_stream (FakeRedis.stream r (RedisEventQueue._stream_key reader)) →
  RedisEventQueue._last_id reader
  = Id (length (FakeRedis.stream r (RedisEventQueue._stream_key reader))) →
  json_loads (json_dumps data) = Some data →
  parse_obj Message (PData data) = Some e →
  (StreamInjector.stream_message inj r context_id task_id (inl data)).1
  = StreamInjector.Ok
      (S (length (FakeRedis.stream r (RedisEventQueue._stream_key reader))))
  ∧ RedisEventQueue.dequeue_event reader
      (StreamInjector.stream_message inj r context_id task_id (inl data)).2 no_wait
    = Some (Return (Parsed e),
            RedisEventQueue.set_last_id reader
              (Id (S (length (FakeRedis.stream r (RedisEventQueue._stream_key reader))))),
            []).
Proof.
  intros Hc Hcl Hne Hctx Hup Hkey Ho Hwf Hcur Hd Hp.
  assert (Hk : RedisEventQueue._stream_key reader = "a2a:task:" +:+ task_id)
    by (rewrite Hkey; reflexivity).
  unfold StreamInjector.stream_message. rewrite !eqb_empty_false by done.
  rewrite _append_to_stream_up by done. cbn [fst snd]. rewrite <- Hk.
  split; [done|].
  apply dequeue_appended_entry; try done.
  unfold classify, StreamInjector._serialize_event. simpl.
  rewrite lookup_insert_ne, !lookup_insert_eq by done. simpl.
  by rewrite Hd, Hp.
Qed.

Lemma stream_message_is_read_by_the_queue_witness :
  RedisEventQueue.dequeue_event
    (RedisEventQueue.__init__ "task456" "a2a:task" None 500)
    (StreamInjector.stream_message
       (StreamInjector.mk "redis://localhost:6379/0" true true)
       FakeRedis.__init__ "ctx123" "task456" (inl "{msg001}")).2
    true
  = Some (Return (Parsed (Sample.event "Message" "{msg001}")),
          RedisEventQueue.set_last_id
            (RedisEventQueue.__init__ "task456" "a2a:task" None 500) (Id 1),
          []).
Proof.
  refine (proj2 (stream_message_is_read_by_the_queue
                   (H := Sample.runtime) (H0 := sample_injector_runtime)
                   (StreamInjector.mk "redis://localhost:6379/0" true true)
                   FakeRedis.__init__ "ctx123" "task456" "{msg001}"
                   (RedisEventQueue.__init__ "task456" "a2a:task" None 500) true
                   (Sample.event "Message" "{msg001}")
                   eq_refl eq_refl _ _ eq_refl eq_refl eq_refl _ eq_refl eq_refl eq_refl)).
  - discriminate.
  - discriminate.
  - apply wf_stream_nil.
Defined.

(** X20. An injection that fails writes nothing. Whenever [stream_message] or
    [append_raw] ends in an error, the client is as it was; an empty task
    id is refused first, with [ValueError], then an empty context id by
    [stream_message], and an injector that is not connected refuses with
    [RuntimeError]. *)
Theorem failed_injection_writes_nothing `{InjectorRuntime}
    (inj : StreamInjector.t) (r : Redis) (context_id task_id : string)
    (message : Data + Event) (event_type payload now : string) :
  (∀ err, (StreamInjector.stream_message inj r context_id task_id message).1
          = StreamInjector.Err err →
          (StreamInjector.stream_message inj r context_id task_id message).2 = r)
  ∧ (∀ err, (StreamInjector.append_raw inj r task_id event_type payload now).1
            = StreamInjector.Err err →
            (StreamInjector.append_raw inj r task_id event_type payload now).2 = r)
  ∧ (task_id = "" →
       (StreamInjector.stream_message inj r context_id task_id message).1
       = StreamInjector.Err (StreamInjector.ValueError "task_id cannot be empty")
       ∧ (StreamInjector.append_raw inj r task_id event_type payload now).1
         = StreamInjector.Err (StreamInjector.ValueError "task_id cannot be empty"))
  ∧ (task_id ≠ "" → context_id = "" →
       (StreamInjector.stream_message inj r context_id task_id message).1
       = StreamInjector.Err (StreamInjector.ValueError "context_id cannot be empty"))
  ∧ (task_id ≠ "" → StreamInjector._connected inj = false →
       (StreamInjector.append_raw inj r task_id event_type payload now).1
       = StreamInjector.Err
           (StreamInjector.RuntimeError "Not connected to Redis. Call connect() first.")).
Proof.
  assert (Happ : ∀ fields err,
            (StreamInjector._append_to_stream inj r task_id fields).1
            = StreamInjector.Err err →
            (StreamInjector._append_to_stream inj r task_id fields).2 = r).
  { intros fields err. unfold StreamInjector._append_to_stream.
    destruct (negb _ || negb _); [done|].
    destruct (StreamInjector._get_stream_key task_id); [|done].
    unfold FakeRedis.xadd. by destruct (down r). }
  split; [|split; [|split; [|split]]].
  - intros err. unfold StreamInjector.stream_message.
    destruct (String.eqb task_id ""); [done|].
    destruct (String.eqb context_id ""); [done|].
    destruct message as [d|m]; [by apply Happ|].
    destruct (json_loads (model_dump_json m)); [by apply Happ|done].
  - intros err. unfold StreamInjector.append_raw.
    destruct (String.eqb task_id ""); [done|]. by apply Happ.
  - intros ->. done.
  - intros Hne ->. unfold StreamInjector.stream_message.
    by rewrite eqb_empty_false.
  - intros Hne Hc. unfold StreamInjector.append_raw, StreamInjector._append_to_stream.
    by rewrite eqb_empty_false, Hc.
Qed.

Lemma failed_injection_writes_nothing_witness :
  (StreamInjector.stream_message (StreamInjector.__init__ "redis://localhost:6379/0")
     sample_noisy_client "ctx" "task" (inl "{}")).1
  = StreamInjector.Err
      (StreamInjector.RuntimeError "Not connected to Redis. Call connect() first.")
  ∧ (StreamInjector.stream_message (StreamInjector.__init__ "redis://localhost:6379/0")
       sample_noisy_client "ctx" "task" (inl "{}")).2
    = sample_noisy_client.
Proof.
  split; [reflexivity|].
  destruct (failed_injection_writes_nothing
              (H := Sample.runtime) (H0 := sample_injector_runtime)
              (StreamInjector.__init__ "redis://localhost:6379/0")
              sample_noisy_client "ctx" "task" (inl "{}") "Message" "{}" "now")
    as (Hwrite & _).
  exact (Hwrite _ eq_refl).
Defined.

(** ** Field names and values that arrive as bytes *)

Section BytesFields.
Context `{Runtime}.
Import RedisEventQueue.

Lemma normalize_decoded (fields decoded : Fields) :
  Forall2 (λ kv kv', decode_field kv = Some kv') fields decoded →
  ∀ norm, normalize fields norm = normalize decoded norm.
Proof.
  induction 1 as [|[k v] [k' v'] fields decoded Hkv _ IH]; intros norm; [done|].
  unfold decode_field in Hkv. cbn [fst snd] in Hkv. cbn [normalize].
  destruct (match k with Bytes b => utf8_decode b | Str s => Some s end) as [key|];
    [|done].
  injection Hkv as <- <-. rewrite IH. f_equal. f_equal.
  destruct v as [s|b]; [done|].
  destruct (utf8_decode b) as [s|] eqn:Hb; [done|]. by rewrite Hb.
Qed.

Lemma normalize_undecodable (fields : Fields) :
  Exists (λ kv, decode_field kv = None) fields →
  ∀ norm, normalize fields norm = None.
Proof.
  induction fields as [|[k v] fields IH]; intros Hex norm.
  { by apply Exists_nil in Hex. }
  cbn [normalize].
  destruct (match k with Bytes b => utf8_decode b | Str s => Some s end) as [key|] eqn:Hk;
    [|done].
  apply IH. apply Exists_cons in Hex as [Hhere|Hlater]; [|done].
  unfold decode_field in Hhere. cbn [fst snd] in Hhere. by rewrite Hk in Hhere.
Qed.

End BytesFields.

(** X21. Bytes are read as text. An entry whose field names all decode as
    UTF-8 is treated by [dequeue_event] exactly as the entry with the
    names decoded and each value decoded where it can be: same skip, same
    tombstone, same value. An entry with a field name that does not decode
    is skipped, with a DEBUG record. *)
Theorem bytes_fields_are_read_as_text `{Runtime} (fields : Fields) :
  (∀ decoded, mapM decode_field fields = Some decoded →
     classify fields = classify decoded
     ∧ mapM decode_field decoded = Some decoded)
  ∧ (mapM decode_field fields = None →
       classify fields
       = Skip (mkLog DEBUG
                 "RedisEventQueue.dequeue_event: failed to normalize entry fields, skipping %s")).
Proof.
  split.
  - intros decoded Hm. apply mapM_Some in Hm. split.
    + unfold classify. by rewrite (normalize_decoded fields decoded Hm).
    + apply mapM_Some. clear -Hm.
      induction Hm as [|[k v] [k' v'] fields decoded Hkv _ IH]; constructor; [|done].
      unfold decode_field in *. cbn [fst snd] in *.
      destruct (match k with Bytes b => utf8_decode b | Str s => Some s end) as [key|];
        [|done].
      injection Hkv as <- <-. f_equal. f_equal.
      destruct v as [s|b]; [done|].
      destruct (utf8_decode b) as [s|] eqn:Hb; [done|]. by rewrite Hb.
  - intros Hm. apply mapM_None in Hm. unfold classify.
    by rewrite normalize_undecodable.
Qed.

Lemma bytes_fields_are_read_as_text_witness :
  classify [(Bytes (String.list_byte_of_string "type"),
             Bytes (String.list_byte_of_string "Message"));
            (Bytes (String.list_byte_of_string "payload"),
             Bytes (String.list_byte_of_string "{A}"))]
  = classify [(Str "type", Str "Message"); (Str "payload", Str "{A}")].
Proof.
  destruct (bytes_fields_are_read_as_text (H := Sample.runtime)
              [(Bytes (String.list_byte_of_string "type"),
                Bytes (String.list_byte_of_string "Message"));
               (Bytes (String.list_byte_of_string "payload"),
                Bytes (String.list_byte_of_string "{A}"))]) as [Hdec _].
  exact (proj1 (Hdec [(Str "type", Str "Message"); (Str "payload", Str "{A}")] eq_refl)).
Defined.


(** ** The connection of the injector *)

(** X22. An injector is connected only with a client, through [connect] and
    [disconnect] from its construction on. [connect] succeeds when the
    injector is already connected or the client answers, and then the
    injector is connected; when it fails the injector is not connected and
    refuses every append with [RuntimeError], writing nothing, as it does
    after [disconnect]. *)
Theorem injector_connection_lifecycle (inj : StreamInjector.t) (r : Redis) :
  injector_ok inj →
  injector_ok (StreamInjector.connect inj r).2
  ∧ injector_ok (StreamInjector.disconnect inj)
  ∧ StreamInjector._connected (StreamInjector.disconnect inj) = false
  ∧ ((StreamInjector.connect inj r).1 = StreamInjector.Ok () →
       StreamInjector._connected (StreamInjector.connect inj r).2 = true)
  ∧ (StreamInjector._connected inj = false → down r = true →
       (StreamInjector.connect inj r).1
       = StreamInjector.Err (StreamInjector.Storage RedisError)
       ∧ StreamInjector._connected (StreamInjector.connect inj r).2 = false)
  ∧ (∀ inj' r' task_id fields,
       StreamInjector._connected inj' = false →
       StreamInjector._append_to_stream inj' r' task_id fields
       = (StreamInjector.Err
            (StreamInjector.RuntimeError "Not connected to Redis. Call connect() first."),
          r')).
Proof.
  intros Hok. unfold injector_ok in *.
  unfold StreamInjector.connect, StreamInjector.disconnect.
  destruct inj as [url cl co]. cbn [StreamInjector._connected StreamInjector._client
                                     StreamInjector.redis_url] in *.
  destruct co.
  - rewrite (Hok eq_refl). cbn. repeat split; try done.
    intros inj' r' task_id fields Hc. unfold StreamInjector._append_to_stream.
    by rewrite Hc.
  - destruct (down r); cbn; destruct cl; cbn; repeat split; try done;
      intros inj' r' task_id fields Hc; unfold StreamInjector._append_to_stream;
      by rewrite Hc.
Qed.

Lemma injector_connection_lifecycle_witness :
  StreamInjector._connected
    (StreamInjector.connect (StreamInjector.__init__ "redis://localhost:6379/0")
       FakeRedis.__init__).2 = true
  ∧ StreamInjector._connected
      (StreamInjector.disconnect (StreamInjector.__init__ "redis://localhost:6379/0"))
    = false.
Proof.
  assert (Hok : injector_ok (StreamInjector.__init__ "redis://localhost:6379/0")).
  { intros Hc. discriminate Hc. }
  destruct (injector_connection_lifecycle
              (StreamInjector.__init__ "redis://localhost:6379/0")
              FakeRedis.__init__ Hok) as (_ & _ & Hdis & Hconn & _).
  split; [exact (Hconn eq_refl)|exact Hdis].
Defined.
